(** * MemeWiki API: a shallow embedding of [main.py] and [schemas.py]

    The handlers of [main.py] are embedded as computations in a small
    state-and-exception monad over a document store.  The store, the
    identifier type and the query language are those of the libraries the
    handlers call (bson, pymongo); their behaviour is written out below as
    far as the handlers use it. *)

From stdpp Require Import base option list gmap strings sorting.
From Stdlib Require Import ZArith NArith Ascii String Lia.

Set Warnings "-register-all".
#[local] Open Scope Z_scope.
#[local] Open Scope string_scope.
#[local] Open Scope list_scope.

(** ** Identifiers: [bson.ObjectId]

    An ObjectId holds the bytes its constructor got.  Given a string, the
    constructor insists on a length of twenty-four and hands it to
    [bytes.fromhex]: that reads pairs of hexadecimal digits (either case)
    and skips ASCII whitespace before each pair and at the end; whatever it
    cannot read raises [InvalidId].  The bytes are not counted afterwards,
    so a string padded with whitespace gives fewer than twelve.  [str]
    prints the bytes as lowercase hexadecimal. *)

Definition ObjectId : Type := list N.

Definition hex_value (c : ascii) : option N :=
  let n := N_of_ascii c in
  if ((48 <=? n) && (n <=? 57))%N then Some (n - 48)%N
  else if ((97 <=? n) && (n <=? 102))%N then Some (n - 87)%N
  else if ((65 <=? n) && (n <=? 70))%N then Some (n - 55)%N
  else None.

(** Space, tab, line feed, vertical tab, form feed, carriage return. *)
Definition is_space (c : ascii) : bool :=
  let n := N_of_ascii c in
  ((n =? 32) || ((9 <=? n) && (n <=? 13)))%N.

Fixpoint fromhex (s : string) : option (list N) :=
  match s with
  | EmptyString => Some []
  | String hi rest =>
      if is_space hi then fromhex rest
      else
        match rest with
        | EmptyString => None
        | String lo rest' =>
            match hex_value hi, hex_value lo, fromhex rest' with
            | Some h, Some l, Some bs => Some ((16 * h + l)%N :: bs)
            | _, _, _ => None
            end
        end
  end.

Definition ObjectId_parse (s : string) : option ObjectId :=
  if (String.length s =? 24)%nat then fromhex s else None.

Definition hex_digit (n : N) : ascii :=
  if (n <? 10)%N then ascii_of_N (n + 48) else ascii_of_N (n + 87).

Fixpoint hexlify (bs : list N) : string :=
  match bs with
  | [] => EmptyString
  | b :: rest => String (hex_digit (b / 16)) (String (hex_digit (b mod 16)) (hexlify rest))
  end.

Definition ObjectId_str (o : ObjectId) : string := hexlify o.

(** ** Documents

    Values a Python [dict] handled here can hold.  [VUrl] is the URL object
    pydantic makes of an [HttpUrl] field; it lives in a dumped model only,
    since the driver cannot write it to a document. *)

Inductive value :=
| VNull
| VBool (b : bool)
| VInt (n : Z)
| VStr (s : string)
| VOid (o : ObjectId)
| VDate (t : Z)
| VUrl (u : string)
| VList (l : list value)
| VDoc (d : gmap string value).

(** What the driver can encode: integers of at most eight bytes and no
    foreign object, at any depth. *)
Definition int64_min : Z := -9223372036854775808.
Definition int64_max : Z := 9223372036854775807.

Definition in_int64 (n : Z) : bool := ((int64_min <=? n) && (n <=? int64_max))%Z.

Fixpoint encodable (v : value) : bool :=
  match v with
  | VInt n => in_int64 n
  | VUrl _ => false
  | VList l => forallb encodable l
  | VDoc d => map_fold (fun _ x acc => encodable x && acc) true d
  | _ => true
  end.

Definition storable (doc : gmap string value) : bool := encodable (VDoc doc).
Arguments storable : simpl never.

Abbreviation document := (gmap string value).
Abbreviation collection := (list (gmap string value)).
Abbreviation Database := (gmap string (list (gmap string value))).

(** [db[name]]: a collection that was never written to is empty. *)
Definition coll (d : Database) (name : string) : collection :=
  default [] (d !! name).

(** ** Exceptions

    [detail] of an [HTTPException] is either a literal text or [str(e)] of a
    caught exception, kept symbolic.  A request body that fails validation
    never reaches its handler: the framework answers with the list of
    offending fields. *)

Inductive error_kind :=
| Missing
| UrlParsing
| GreaterThanEqual.

Inductive exn :=
| HTTPException (status_code : Z) (detail : detail)
| RequestValidationError (errors : list (string * error_kind))
| InvalidId (oid : string)
| InvalidDocument
| TypeError
| OperationFailure (msg : string)
| DuplicateKeyError
| DatabaseUnavailable
with detail :=
| Text (s : string)
| StrOf (e : exn).

(** ** The handler monad

    A handler runs against the process-wide [db] handle (absent when the
    database is not configured) and leaves a log of the operations it sent
    to the store. *)

Inductive db_op :=
| OpFindOne (c : string)
| OpFind (c : string)
| OpUpdateOne (c : string)
| OpInsertOne (c : string).

Record world := World { db : option Database; oplog : list db_op }.

Inductive result (A : Type) :=
| Return (a : A)
| Raise (e : exn).
Arguments Return {A} a.
Arguments Raise {A} e.

Definition Handler (A : Type) : Type := world -> result A * world.

Definition ret {A} (a : A) : Handler A := fun w => (Return a, w).

Definition raise {A} (e : exn) : Handler A := fun w => (Raise e, w).

Definition bind {A B} (m : Handler A) (k : A -> Handler B) : Handler B :=
  fun w =>
    match m w with
    | (Return a, w') => k a w'
    | (Raise e, w') => (Raise e, w')
    end.

(** [try: body  except Exception as e: handler e] *)
Definition try_except {A} (body : Handler A) (handler : exn -> Handler A) : Handler A :=
  fun w =>
    match body w with
    | (Return a, w') => (Return a, w')
    | (Raise e, w') => handler e w'
    end.

Declare Scope handler_scope.
Delimit Scope handler_scope with handler.
Notation "x <- m ;; k" := (bind m (fun x => k))
  (at level 100, m at next level, right associativity) : handler_scope.
#[local] Open Scope handler_scope.

Definition db_is_None : Handler bool :=
  fun w => (Return (match db w with None => true | Some _ => false end), w).

Definition log (o : db_op) : Handler unit :=
  fun w => (Return tt, World (db w) (oplog w ++ [o])).

(** Subscripting the handle: [db[name]] on an unset handle is a
    [TypeError]. *)
Definition the_db : Handler Database :=
  fun w =>
    match db w with
    | Some d => (Return d, w)
    | None => (Raise TypeError, w)
    end.

Definition put_coll (name : string) (c : collection) : Handler unit :=
  fun w =>
    match db w with
    | Some d => (Return tt, World (Some (<[name := c]> d)) (oplog w))
    | None => (Raise TypeError, w)
    end.

Definition ObjectId_new (s : string) : Handler ObjectId :=
  match ObjectId_parse s with
  | Some o => ret o
  | None => raise (InvalidId s)
  end.

(** ** Regular expressions: the fragment of [$regex] modelled

    A pattern made of ordinary characters, [.] and escaped punctuation,
    matched byte by byte with the letters A to Z folded: on ASCII text that
    is the engine's matching.  [regex_compile] gives [None] on a pattern
    the engine rejects (a trailing backslash, a NUL byte) and on every
    pattern that uses another operator: those are outside the fragment,
    and the properties below that depend on the pattern are stated for
    patterns inside it. *)

Inductive re_atom :=
| RChar (c : ascii)
| RDot.

Definition is_meta (c : ascii) : bool :=
  existsb (Ascii.eqb c) (list_ascii_of_string "\^$.|?*+()[]{}").

Definition is_alnum (c : ascii) : bool :=
  let n := N_of_ascii c in
  (((48 <=? n) && (n <=? 57)) || ((65 <=? n) && (n <=? 90)) || ((97 <=? n) && (n <=? 122)))%N.

Fixpoint regex_compile (p : string) : option (list re_atom) :=
  match p with
  | EmptyString => Some []
  | String c rest =>
      if Ascii.eqb c "000" then None
      else if Ascii.eqb c "\" then
        match rest with
        | EmptyString => None
        | String e rest' =>
            if is_alnum e || Ascii.eqb e "000" then None
            else option_map (cons (RChar e)) (regex_compile rest')
        end
      else if Ascii.eqb c "." then option_map (cons RDot) (regex_compile rest)
      else if is_meta c then None
      else option_map (cons (RChar c)) (regex_compile rest)
  end.

Definition lower (c : ascii) : ascii :=
  let n := N_of_ascii c in
  if ((65 <=? n) && (n <=? 90))%N then ascii_of_N (n + 32) else c.


Definition atom_matches (icase : bool) (a : re_atom) (c : ascii) : bool :=
  match a with
  | RDot => negb (Ascii.eqb c "010")
  | RChar x => if icase then Ascii.eqb (lower x) (lower c) else Ascii.eqb x c
  end.

Fixpoint match_here (icase : bool) (r : list re_atom) (s : string) : bool :=
  match r, s with
  | [], _ => true
  | _ :: _, EmptyString => false
  | a :: r', String c s' => atom_matches icase a c && match_here icase r' s'
  end.

(** Unanchored search: the pattern matches at some offset of [s]. *)
Fixpoint regex_search (icase : bool) (r : list re_atom) (s : string) : bool :=
  match_here icase r s ||
  match s with
  | EmptyString => false
  | String _ s' => regex_search icase r s'
  end.

Definition has_option (o : ascii) (options : string) : bool :=
  existsb (Ascii.eqb o) (list_ascii_of_string options).

(** ** Query filters and updates (pymongo)

    A filter is a dict: its entries are joined by AND.  Only the operators
    the handlers write are modelled.  A condition on a field holds when the
    field's value satisfies it or is an array with an element that does. *)

Inductive cond :=
| FEq (v : value)
| FRegex (pattern options : string)
| FIn (vs : list value).

Inductive clause :=
| Field (name : string) (c : cond)
| Or (alts : list (string * cond)).

Definition scalar_eqb (a b : value) : bool :=
  match a, b with
  | VNull, VNull => true
  | VBool x, VBool y => Bool.eqb x y
  | VInt x, VInt y => (x =? y)%Z
  | VStr x, VStr y => String.eqb x y
  | VOid x, VOid y => bool_decide (x = y)
  | VDate x, VDate y => (x =? y)%Z
  | _, _ => false
  end.

Definition any_elem (test : value -> bool) (fv : option value) : bool :=
  match fv with
  | None => false
  | Some (VList l) => test (VList l) || existsb test l
  | Some v => test v
  end.

Definition str_test (p : string -> bool) (v : value) : bool :=
  match v with
  | VStr s => p s
  | _ => false
  end.

Definition cond_matches (c : cond) (fv : option value) : bool :=
  match c with
  | FEq q => any_elem (scalar_eqb q) fv
  | FIn qs => any_elem (fun v => existsb (fun q => scalar_eqb q v) qs) fv
  | FRegex p o =>
      match regex_compile p with
      | Some r => any_elem (str_test (regex_search (has_option "i" o) r)) fv
      | None => false
      end
  end.

Definition clause_matches (doc : document) (cl : clause) : bool :=
  match cl with
  | Field n c => cond_matches c (doc !! n)
  | Or alts => existsb (fun a => cond_matches (snd a) (doc !! fst a)) alts
  end.

Definition matches (f : list clause) (doc : document) : bool :=
  forallb (clause_matches doc) f.

Definition cond_ok (c : cond) : bool :=
  match c with
  | FRegex p _ => bool_decide (is_Some (regex_compile p))
  | _ => true
  end.

Definition clause_ok (cl : clause) : bool :=
  match cl with
  | Field _ c => cond_ok c
  | Or alts => negb (Nat.eqb (List.length alts) 0) && forallb (fun a => cond_ok (snd a)) alts
  end.

(** The server parses the whole filter before it scans: a pattern it cannot
    compile fails the query whatever the collection holds. *)
Definition filter_ok (f : list clause) : bool := forallb clause_ok f.

(** [{"$inc": ..., "$set": ...}] *)
Record update := Update { u_inc : list (string * Z); u_set : list (string * value) }.

(** [$inc] creates a missing field and adds to a number, as long as the sum
    fits the eight bytes of a stored integer; past that, and on anything
    that is not a number, it is a write error. *)
Definition apply_inc (doc : option document) (fn : string * Z) : option document :=
  match doc with
  | None => None
  | Some d =>
      match d !! fst fn with
      | None => Some (<[fst fn := VInt (snd fn)]> d)
      | Some (VInt m) =>
          if in_int64 (m + snd fn) then Some (<[fst fn := VInt (m + snd fn)]> d)
          else None
      | Some _ => None
      end
  end.

Definition apply_set (d : document) (fv : string * value) : document :=
  <[fst fv := snd fv]> d.

Definition apply_update (u : update) (d : document) : option document :=
  match foldl apply_inc (Some d) (u_inc u) with
  | Some d' => Some (foldl apply_set d' (u_set u))
  | None => None
  end.

Inductive update_outcome :=
| NoMatch
| Updated (c : collection)
| WriteError.

(** [update_one] touches the first document the filter selects. *)
Fixpoint update_first (f : list clause) (u : update) (l : collection) : update_outcome :=
  match l with
  | [] => NoMatch
  | doc :: rest =>
      if matches f doc then
        match apply_update u doc with
        | Some doc' => Updated (doc' :: rest)
        | None => WriteError
        end
      else
        match update_first f u rest with
        | Updated rest' => Updated (doc :: rest')
        | o => o
        end
  end.

Record UpdateResult := { matched_count : Z }.

(** *** Sort order

    Values of different types sort by type (null, numbers, strings,
    documents, arrays, identifiers, booleans, dates); a missing field sorts
    as null.  The key of a value is its type rank followed by its contents,
    compared lexicographically; documents and arrays are not compared
    further.  (No stored document holds a [VUrl]; it is ranked with the
    documents to keep the function total.) *)

Definition string_codes (s : string) : list Z :=
  map (fun c => Z.of_N (N_of_ascii c)) (list_ascii_of_string s).

Definition bson_key (v : option value) : list Z :=
  match v with
  | None | Some VNull => [1]
  | Some (VInt n) => [2; n]
  | Some (VStr s) => 3 :: string_codes s
  | Some (VDoc _) => [4]
  | Some (VList _) => [5]
  | Some (VOid o) => 7 :: map Z.of_N o
  | Some (VBool b) => [8; if b then 1 else 0]
  | Some (VDate t) => [9; t]
  | Some (VUrl _) => [4]
  end.

Fixpoint lex_leb (a b : list Z) : bool :=
  match a, b with
  | [], _ => true
  | _ :: _, [] => false
  | x :: a', y :: b' => (x <? y)%Z || ((x =? y)%Z && lex_leb a' b')
  end.

(** [a] may come before [b] in a sort on [key]: ascending for a
    non-negative direction, descending for a negative one. *)
Definition sort_rel (key : string) (direction : Z) (a b : document) : Prop :=
  if (direction <? 0)%Z
  then lex_leb (bson_key (b !! key)) (bson_key (a !! key)) = true
  else lex_leb (bson_key (a !! key)) (bson_key (b !! key)) = true.

#[global] Instance sort_rel_dec key direction a b : Decision (sort_rel key direction a b).
Proof. unfold sort_rel. destruct (direction <? 0)%Z; apply _. Defined.

Definition has_id (o : ObjectId) (doc : document) : bool :=
  match doc !! "_id" with
  | Some (VOid o') => bool_decide (o' = o)
  | _ => false
  end.

(** *** Collection operations *)

Definition find_one (c : string) (f : list clause) : Handler (option document) :=
  d <- the_db ;;
  _ <- log (OpFindOne c) ;;
  if filter_ok f then ret (List.find (matches f) (coll d c))
  else raise (OperationFailure "bad query").

(** [list(db[c].find(f).sort(key, direction))] *)
Definition find_sort (c : string) (f : list clause) (key : string) (direction : Z)
  : Handler (list document) :=
  d <- the_db ;;
  _ <- log (OpFind c) ;;
  if filter_ok f
  then ret (merge_sort (sort_rel key direction) (List.filter (matches f) (coll d c)))
  else raise (OperationFailure "bad query").

Definition update_one (c : string) (f : list clause) (u : update) : Handler UpdateResult :=
  d <- the_db ;;
  _ <- log (OpUpdateOne c) ;;
  if filter_ok f then
    match update_first f u (coll d c) with
    | NoMatch => ret {| matched_count := 0 |}
    | Updated c' => _ <- put_coll c c' ;; ret {| matched_count := 1 |}
    | WriteError => raise (OperationFailure "write error")
    end
  else raise (OperationFailure "bad query").

(** [insert_one]: a document the driver cannot encode never leaves the
    process.  Otherwise the driver stamps it with the identifier it
    generated, [new_id]; the store refuses an identifier already in use. *)
Definition insert_one (c : string) (doc : document) (new_id : ObjectId) : Handler ObjectId :=
  d <- the_db ;;
  if negb (storable doc) then raise InvalidDocument
  else
  _ <- log (OpInsertOne c) ;;
  if existsb (has_id new_id) (coll d c) then raise DuplicateKeyError
  else _ <- put_coll c (coll d c ++ [<["_id" := VOid new_id]> doc]) ;; ret new_id.

(** ** [schemas.py]

    A payload is the request body with each field either absent or holding
    a value of the field's Python type; a body holding a value of another
    type is refused by pydantic and is not among the payloads here.
    Validation checks presence and the declared constraints and fills the
    defaults.  What makes a string a well-formed [HttpUrl] is pydantic's
    business and is a parameter here; a validated URL is kept as the text
    sent, and [model_dump] hands it on as the URL object pydantic made of
    it. *)

Record Meme := {
  title : string;
  image_url : option string;
  caption : option string;
  origin_summary : option string;
  first_seen_at : option string;
  sources : list string;
  tags : list string;
  submitter : option string;
  upvotes : Z;
  downvotes : Z
}.

Record Comment := {
  meme_id : string;
  author : option string;
  text : string;
  created_at : option Z
}.

Record MemePayload := {
  p_title : option string;
  p_image_url : option string;
  p_caption : option string;
  p_origin_summary : option string;
  p_first_seen_at : option string;
  p_sources : option (list string);
  p_tags : option (list string);
  p_submitter : option string;
  p_upvotes : option Z;
  p_downvotes : option Z
}.

Record CommentPayload := {
  p_meme_id : option string;
  p_author : option string;
  p_text : option string;
  p_created_at : option Z
}.

Section Validation.

Variable HttpUrl_ok : string -> bool.

Definition required {A} (name : string) (v : option A) : list (string * error_kind) :=
  match v with
  | None => [(name, Missing)]
  | Some _ => []
  end.

Definition url_field (name : string) (v : option string) : list (string * error_kind) :=
  match v with
  | Some u => if HttpUrl_ok u then [] else [(name, UrlParsing)]
  | None => []
  end.

(** One error for each element that is not a well-formed URL. *)
Definition url_list_field (name : string) (v : option (list string)) : list (string * error_kind) :=
  match v with
  | Some us => flat_map (fun u => if HttpUrl_ok u then [] else [(name, UrlParsing)]) us
  | None => []
  end.

(** [Field(0, ge=0)] *)
Definition ge0_field (name : string) (v : option Z) : list (string * error_kind) :=
  match v with
  | Some n => if (0 <=? n)%Z then [] else [(name, GreaterThanEqual)]
  | None => []
  end.

Definition Meme_errors (p : MemePayload) : list (string * error_kind) :=
  required "title" (p_title p) ++
  url_field "image_url" (p_image_url p) ++
  url_list_field "sources" (p_sources p) ++
  ge0_field "upvotes" (p_upvotes p) ++
  ge0_field "downvotes" (p_downvotes p).

Definition Meme_validate (p : MemePayload) : list (string * error_kind) + Meme :=
  match Meme_errors p, p_title p with
  | [], Some t =>
      inr {| title := t;
             image_url := p_image_url p;
             caption := p_caption p;
             origin_summary := p_origin_summary p;
             first_seen_at := p_first_seen_at p;
             sources := default [] (p_sources p);
             tags := default [] (p_tags p);
             submitter := p_submitter p;
             upvotes := default 0%Z (p_upvotes p);
             downvotes := default 0%Z (p_downvotes p) |}
  | errs, _ => inl errs
  end.

End Validation.

Definition Comment_errors (p : CommentPayload) : list (string * error_kind) :=
  required "meme_id" (p_meme_id p) ++ required "text" (p_text p).

Definition Comment_validate (p : CommentPayload) : list (string * error_kind) + Comment :=
  match p_meme_id p, p_text p with
  | Some m, Some t =>
      inr {| meme_id := m; author := p_author p; text := t; created_at := p_created_at p |}
  | _, _ => inl (Comment_errors p)
  end.

(** [model_dump()] *)
Definition opt_str (o : option string) : value :=
  match o with
  | Some s => VStr s
  | None => VNull
  end.

Definition opt_url (o : option string) : value :=
  match o with
  | Some u => VUrl u
  | None => VNull
  end.

Definition opt_date (o : option Z) : value :=
  match o with
  | Some t => VDate t
  | None => VNull
  end.

Definition Meme_dump (m : Meme) : document :=
  list_to_map
    [("title", VStr (title m));
     ("image_url", opt_url (image_url m));
     ("caption", opt_str (caption m));
     ("origin_summary", opt_str (origin_summary m));
     ("first_seen_at", opt_str (first_seen_at m));
     ("sources", VList (map VUrl (sources m)));
     ("tags", VList (map VStr (tags m)));
     ("submitter", opt_str (submitter m));
     ("upvotes", VInt (upvotes m));
     ("downvotes", VInt (downvotes m))].

Definition Comment_dump (c : Comment) : document :=
  list_to_map
    [("meme_id", VStr (meme_id c));
     ("author", opt_str (author c));
     ("text", VStr (text c));
     ("created_at", opt_date (created_at c))].

(** ** The [database] helpers *)

(** Modelled from the spec: [database.create_document] is imported by
    [main.py] but is not among the sources.  Section 4.2: it "inserts one
    document" into the named collection and returns "the newly assigned
    external identifier as a string"; with no database configured the
    call fails (section 5). *)
Definition create_document (c : string) (data : document) (new_id : ObjectId) : Handler string :=
  fun w =>
    match db w with
    | None => (Raise DatabaseUnavailable, w)
    | Some _ => (oid <- insert_one c data new_id ;; ret (ObjectId_str oid)) w
    end.

(** Modelled from the spec: [database.get_documents] is imported by
    [main.py] but is not among the sources.  Section 4.3: the documents
    matching the filter, "capped at [limit], order is whatever the storage
    engine returns"; here the order of insertion. *)
Definition get_documents (c : string) (f : list clause) (limit : Z) : Handler (list document) :=
  fun w =>
    match db w with
    | None => (Raise DatabaseUnavailable, w)
    | Some d =>
        (_ <- log (OpFind c) ;;
         if filter_ok f
         then ret (take (Z.to_nat limit) (List.filter (matches f) (coll d c)))
         else raise (OperationFailure "bad query")) w
    end.

(** ** [main.py] *)

(** Python truthiness of a dict that may be [None], and of an optional
    string. *)
Definition truthy_doc (doc : option document) : bool :=
  match doc with
  | Some d => negb (Nat.eqb (size d) 0)
  | None => false
  end.

Definition truthy_str (s : option string) : option string :=
  match s with
  | Some EmptyString | None => None
  | Some s => Some s
  end.

Definition to_json (doc : document) : document :=
  if negb (truthy_doc (Some doc)) then doc
  else
    match doc !! "_id" with
    | Some (VOid o) => <["id" := VStr (ObjectId_str o)]> (delete "_id" doc)
    | _ => doc
    end.

Definition json_list (docs : list document) : value :=
  VList (map (fun d => VDoc (to_json d)) docs).

Definition by_id (o : ObjectId) : list clause := [Field "_id" (FEq (VOid o))].

Definition create_meme (meme : Meme) (new_id : ObjectId) : Handler value :=
  try_except
    (inserted_id <- create_document "meme" (Meme_dump meme) new_id ;;
     ret (VDoc {["id" := VStr inserted_id]}))
    (fun e => raise (HTTPException 500 (StrOf e))).

Definition search_clause (q : string) : clause :=
  Or [("title", FRegex q "i");
      ("caption", FRegex q "i");
      ("origin_summary", FRegex q "i")].

Definition tag_clause (tag : string) : clause := Field "tags" (FIn [VStr tag]).

Definition filter_dict (q tag : option string) : list clause :=
  match truthy_str q with
  | Some q' => [search_clause q']
  | None => []
  end ++
  match truthy_str tag with
  | Some tag' => [tag_clause tag']
  | None => []
  end.

Definition list_memes (q tag : option string) (limit : Z) : Handler value :=
  try_except
    (docs <- get_documents "meme" (filter_dict q tag) limit ;;
     ret (json_list docs))
    (fun e => raise (HTTPException 500 (StrOf e))).

(** The signature's default: [limit: int = 50]. *)
Definition default_limit : Z := 50.

Definition get_meme (meme_id : string) : Handler value :=
  unset <- db_is_None ;;
  if unset : bool then raise (HTTPException 500 (Text "Database not configured"))
  else
    try_except
      (oid <- ObjectId_new meme_id ;;
       doc <- find_one "meme" (by_id oid) ;;
       match doc with
       | Some d =>
           if truthy_doc doc then
             comments <- find_sort "comment" [Field "meme_id" (FEq (VStr meme_id))]
                                   "created_at" (-1) ;;
             ret (VDoc (<["comments" := json_list comments]> (to_json d)))
           else raise (HTTPException 404 (Text "Meme not found"))
       | None => raise (HTTPException 404 (Text "Meme not found"))
       end)
      (fun e => raise (HTTPException 500 (StrOf e))).

Record VoteBody := { direction : string }.

Definition vote_update (dir : string) : update :=
  {| u_inc := if String.eqb dir "up" then [("upvotes", 1%Z)] else [("downvotes", 1%Z)];
     u_set := [("updated_at", VNull)] |}.

Definition vote_meme (meme_id : string) (body : VoteBody) : Handler value :=
  unset <- db_is_None ;;
  if unset : bool then raise (HTTPException 500 (Text "Database not configured"))
  else if negb (String.eqb (direction body) "up" || String.eqb (direction body) "down")
  then raise (HTTPException 400 (Text "Invalid direction"))
  else
    oid <- ObjectId_new meme_id ;;
    res <- update_one "meme" (by_id oid) (vote_update (direction body)) ;;
    if (matched_count res =? 0)%Z then raise (HTTPException 404 (Text "Meme not found"))
    else ret (VDoc {["ok" := VBool true]}).

Definition add_comment (meme_id : string) (comment : Comment) (new_id : ObjectId)
  : Handler value :=
  unset <- db_is_None ;;
  if unset : bool then raise (HTTPException 500 (Text "Database not configured"))
  else
    oid <- ObjectId_new meme_id ;;
    found <- find_one "meme" (by_id oid) ;;
    if negb (truthy_doc found) then raise (HTTPException 404 (Text "Meme not found"))
    else
      let data := <["meme_id" := VStr meme_id]> (Comment_dump comment) in
      inserted_id <- create_document "comment" data new_id ;;
      ret (VDoc {["id" := VStr inserted_id]}).

(** ** The API as a whole

    One request, as the framework sees it: bodies arrive unvalidated, and a
    request that inserts carries the identifier the driver will generate. *)

Inductive request :=
| PostMeme (body : MemePayload) (new_id : ObjectId)
| GetMemes (q tag : option string) (limit : option Z)
| GetMeme (id : string)
| PostVote (id : string) (body : VoteBody)
| PostComment (id : string) (body : CommentPayload) (new_id : ObjectId).

Definition serve (HttpUrl_ok : string -> bool) (r : request) : Handler value :=
  match r with
  | PostMeme body new_id =>
      match Meme_validate HttpUrl_ok body with
      | inr meme => create_meme meme new_id
      | inl errs => raise (RequestValidationError errs)
      end
  | GetMemes q tag limit => list_memes q tag (default default_limit limit)
  | GetMeme id => get_meme id
  | PostVote id body => vote_meme id body
  | PostComment id body new_id =>
      match Comment_validate body with
      | inr comment => add_comment id comment new_id
      | inl errs => raise (RequestValidationError errs)
      end
  end.

(** Requests served one after the other, each on the state the previous one
    left. *)
Fixpoint run_all (hs : list (Handler value)) (w : world) : list (result value) * world :=
  match hs with
  | [] => ([], w)
  | h :: rest =>
      let (r, w') := h w in
      let (rs, w'') := run_all rest w' in
      (r :: rs, w'')
  end.

Definition serve_all (HttpUrl_ok : string -> bool) (rs : list request) : world -> list (result value) * world :=
  run_all (map (serve HttpUrl_ok) rs).

(** ** The diagnostics endpoint

    [test_database] uses two things of the handle: its [name] and
    [list_collection_names()], which answers with the names or raises; the
    text of what it raised is all the endpoint keeps.  The response dict is
    built by assignment, so what was assigned before an exception stays.

    A text is held as its UTF-8 bytes, and [str(e)[:50]] counts characters:
    a character is a byte that is not a continuation byte, with the
    continuation bytes that follow it. *)

Definition is_continuation (c : ascii) : bool :=
  let n := N_of_ascii c in
  ((128 <=? n) && (n <? 192))%N.


(** [s[:n]] *)
Fixpoint take_chars (n : nat) (s : string) : string :=
  match s with
  | EmptyString => EmptyString
  | String c rest =>
      if is_continuation c then String c (take_chars n rest)
      else
        match n with
        | O => EmptyString
        | S n' => String c (take_chars n' rest)
        end
  end.

Record DbHandle := {
  handle_name : string;
  list_collection_names : string + list string
}.

(** ["✅ Set" if os.getenv(NAME) else "❌ Not Set"] *)
Definition set_or_not (env : option string) : value :=
  match truthy_str env with
  | Some _ => VStr "✅ Set"
  | None => VStr "❌ Not Set"
  end.

Definition test_database (handle : option DbHandle) (DATABASE_URL DATABASE_NAME : option string)
  : document :=
  let response : document :=
    list_to_map
      [("backend", VStr "✅ Running");
       ("database", VStr "❌ Not Available");
       ("database_url", VNull);
       ("database_name", VNull);
       ("connection_status", VStr "Not Connected");
       ("collections", VList [])] in
  let response :=
    match handle with
    | Some h =>
        let response := <["database" := VStr "✅ Available"]> response in
        let response := <["database_url" := VStr "✅ Configured"]> response in
        let response := <["database_name" := VStr (handle_name h)]> response in
        let response := <["connection_status" := VStr "Connected"]> response in
        match list_collection_names h with
        | inr collections =>
            let response := <["collections" := VList (map VStr (take 10 collections))]> response in
            <["database" := VStr "✅ Connected & Working"]> response
        | inl e =>
            <["database" := VStr ("❌ Error: " ++ take_chars 50 e)%string]> response
        end
    | None => response
    end in
  let response := <["database_url" := set_or_not DATABASE_URL]> response in
  <["database_name" := set_or_not DATABASE_NAME]> response.

(** ** Vocabulary of the statements *)

(** The stored Meme an identifier selects, if any. *)
Definition lookup_meme (d : Database) (o : ObjectId) : option document :=
  List.find (matches (by_id o)) (coll d "meme").

(** A handler's answer is the not-found error. *)
Definition not_found (r : result value) : Prop :=
  exists d, r = Raise (HTTPException 404 d).

(** A counter as a number; a document that lacks it counts from zero. *)
Definition counter (f : string) (doc : document) : Z :=
  match doc !! f with
  | Some (VInt n) => n
  | _ => 0%Z
  end.

(** A stored Comment points at the id string [meme_id]. *)
Definition refers_to (meme_id : string) (c : document) : bool :=
  cond_matches (FEq (VStr meme_id)) (c !! "meme_id").

(** [a] is at least as new as [b]: the order of a sort on [created_at],
    descending. *)
Definition newer_or_same : relation document := sort_rel "created_at" (-1).

(** The Comment document that [add_comment] hands to the store for a
    request on path id [meme_id], once the driver has stamped it. *)
Definition stamped (meme_id : string) (comment : Comment) (new_id : ObjectId) : document :=
  <["_id" := VOid new_id]> (<["meme_id" := VStr meme_id]> (Comment_dump comment)).

(** Every stored document carries an identifier object, and no two carry
    the same one. *)
Definition ids_distinct (l : collection) : Prop :=
  (forall i x, l !! i = Some x -> exists o, x !! "_id" = Some (VOid o)) /\
  (forall i j x y, l !! i = Some x -> l !! j = Some y -> x !! "_id" = y !! "_id" -> i = j).

(** The answer of a vote that went through. *)
Definition vote_ok : result value := Return (VDoc {["ok" := VBool true]}).

(** The stored Memes, as a handler finds them. *)
Definition memes (w : world) : collection :=
  match db w with
  | Some d => coll d "meme"
  | None => []
  end.

(** One stored document next to a later state of it: the same identifier,
    counters that are not smaller. *)
Definition doc_le (doc doc' : document) : Prop :=
  doc' !! "_id" = doc !! "_id" /\
  (counter "upvotes" doc <= counter "upvotes" doc')%Z /\
  (counter "downvotes" doc <= counter "downvotes" doc')%Z.

(** Every document of [l] is still there in [l'], at the same place. *)
Definition grows (l l' : collection) : Prop :=
  forall i doc, l !! i = Some doc -> exists doc', l' !! i = Some doc' /\ doc_le doc doc'.

(** A Meme document with both counters present, integral and not
    negative. *)
Definition counted (doc : document) : Prop :=
  exists u dn, doc !! "upvotes" = Some (VInt u) /\ doc !! "downvotes" = Some (VInt dn) /\
               (0 <= u)%Z /\ (0 <= dn)%Z.

(** What [update_first] answers, told from the collection. *)
Inductive update_first_spec (f : list clause) (u : update) (l : collection)
  : update_outcome -> Prop :=
| spec_no_match :
    List.find (matches f) l = None ->
    update_first_spec f u l NoMatch
| spec_updated pre doc doc' post :
    l = pre ++ doc :: post ->
    Forall (fun x => matches f x = false) pre ->
    matches f doc = true ->
    apply_update u doc = Some doc' ->
    update_first_spec f u l (Updated (pre ++ doc' :: post))
| spec_write_error pre doc post :
    l = pre ++ doc :: post ->
    Forall (fun x => matches f x = false) pre ->
    matches f doc = true ->
    apply_update u doc = None ->
    update_first_spec f u l WriteError.

(** What one request can do to the stored Memes: nothing, append a
    validated Meme under a new identifier, or apply one vote. *)
Inductive memes_step (url_ok : string -> bool) : collection -> collection -> Prop :=
| step_same l :
    memes_step url_ok l l
| step_insert l body meme new_id :
    Meme_validate url_ok body = inr meme ->
    memes_step url_ok l (l ++ [<["_id" := VOid new_id]> (Meme_dump meme)])
| step_vote l l' o dir :
    dir = "up" \/ dir = "down" ->
    update_first (by_id o) (vote_update dir) l = Updated l' ->
    memes_step url_ok l l'.











(** The store after a request next to the store before it: it is still
    there, the Comments that were stored are stored unchanged and in place,
    with any new ones behind them, and there are no fewer Memes. *)
Definition keeps_all (d : Database) (w' : world) : Prop :=
  exists d' extra,
    db w' = Some d' /\
    coll d' "comment" = coll d "comment" ++ extra /\
    (List.length (coll d "meme") <= List.length (coll d' "meme"))%nat.

(** ** Sample data *)

Definition sample_oid : ObjectId := [1; 2; 3; 4; 5; 6; 7; 8; 9; 10; 171; 205]%N.

Definition sample_meme : Meme :=
  {| title := "cat"; image_url := None; caption := None; origin_summary := None;
     first_seen_at := None; sources := []; tags := ["funny"]; submitter := None;
     upvotes := 0; downvotes := 0 |}.

Definition sample_doc : document := <["_id" := VOid sample_oid]> (Meme_dump sample_meme).

Definition sample_db : Database := {["meme" := [sample_doc]]}.

Definition sample_world : world := World (Some sample_db) [].

Definition sample_id : string := "0102030405060708090aabcd".

(** The same identifier written with capital digits. *)
Definition sample_id_upper : string := "0102030405060708090AABCD".

(** A comment on the sample meme made at time [t]; its own identifier is
    built from [t]. *)
Definition sample_comment (t : Z) : document :=
  <["_id" := VOid [Z.to_N t]]>
    (<["meme_id" := VStr sample_id]>
       (Comment_dump {| meme_id := "elsewhere"; author := None; text := "hi";
                        created_at := Some t |})).

Definition sample_db_comments : Database :=
  <["comment" := [sample_comment 10; sample_comment 20; sample_comment 30]]> sample_db.

Definition sample_comment_body : Comment :=
  {| meme_id := "elsewhere"; author := Some "ann"; text := "hi"; created_at := None |}.

(** Twelve bytes no sample document uses as its identifier. *)
Definition unused_oid : ObjectId := [9; 9; 9; 9; 9; 9; 9; 9; 9; 9; 9; 9]%N.

(** A body with texts, tags and counters, and no URL. *)
Definition full_payload : MemePayload :=
  {| p_title := Some "cat"; p_image_url := None;
     p_caption := Some "a cat"; p_origin_summary := None; p_first_seen_at := Some "2013";
     p_sources := Some []; p_tags := Some ["funny"; "cats"];
     p_submitter := Some "ann"; p_upvotes := Some 3%Z; p_downvotes := Some 0%Z |}.

(** A comment on the sample meme that carries no date. *)
Definition undated_comment : document :=
  <["_id" := VOid [99%N]]>
    (<["meme_id" := VStr sample_id]>
       (Comment_dump {| meme_id := "elsewhere"; author := None; text := "first";
                        created_at := None |})).

Definition sample_db_undated : Database :=
  <["comment" := [undated_comment; sample_comment 10]]> sample_db.


Definition busy_handle : DbHandle :=
  {| handle_name := "memewiki";
     list_collection_names :=
       inr ["c01"; "c02"; "c03"; "c04"; "c05"; "c06"; "c07"; "c08"; "c09"; "c10";
            "c11"; "c12"] |}.

(** A document whose [_id] is not an identifier object. *)
Definition string_id_doc : document := {["_id" := VStr "abc"; "title" := VStr "cat"]}.

Definition up : VoteBody := {| direction := "up" |}.

(** The sample meme with its [upvotes] at the largest storable integer. *)
Definition maxed_doc : document := <["upvotes" := VInt int64_max]> sample_doc.

Definition maxed_db : Database := {["meme" := [maxed_doc]]}.
Definition down : VoteBody := {| direction := "down" |}.

(** A body that carries a title and nothing else. *)
Definition title_only (t : string) : MemePayload :=
  {| p_title := Some t; p_image_url := None; p_caption := None; p_origin_summary := None;
     p_first_seen_at := None; p_sources := None; p_tags := None; p_submitter := None;
     p_upvotes := None; p_downvotes := None |}.

(** A stand-in for the URL check, used on sample inputs only. *)
Definition sample_url_ok (u : string) : bool :=
  String.prefix "http://" u || String.prefix "https://" u.

Definition negative_votes_payload : MemePayload :=
  {| p_title := Some "cat"; p_image_url := None; p_caption := None; p_origin_summary := None;
     p_first_seen_at := None; p_sources := None; p_tags := None; p_submitter := None;
     p_upvotes := Some (-1)%Z; p_downvotes := None |}.

(** * Properties *)

(** ** Identifiers *)

Lemma hex_value_digit (n : N) : (n < 16)%N -> hex_value (hex_digit n) = Some n.
Proof.
  intros Hn.
  assert (Hcases : n ∈ [0; 1; 2; 3; 4; 5; 6; 7; 8; 9; 10; 11; 12; 13; 14; 15]%N).
  { apply list_elem_of_In. simpl. lia. }
  repeat (apply elem_of_cons in Hcases as [-> | Hcases]); try reflexivity.
  apply elem_of_nil in Hcases. contradiction.
Qed.

Lemma hex_digit_not_space (n : N) : (n < 16)%N -> is_space (hex_digit n) = false.
Proof.
  intros Hn.
  assert (Hcases : n ∈ [0; 1; 2; 3; 4; 5; 6; 7; 8; 9; 10; 11; 12; 13; 14; 15]%N).
  { apply list_elem_of_In. simpl. lia. }
  repeat (apply elem_of_cons in Hcases as [-> | Hcases]); try reflexivity.
  apply elem_of_nil in Hcases. contradiction.
Qed.

Lemma fromhex_hexlify (bs : list N) :
  Forall (fun b => (b < 256)%N) bs -> fromhex (hexlify bs) = Some bs.
Proof.
  induction 1 as [| b bs Hb _ IH]; simpl; [reflexivity |].
  rewrite (hex_digit_not_space (b / 16)) by (apply N.Div0.div_lt_upper_bound; lia).
  rewrite (hex_value_digit (b / 16)) by (apply N.Div0.div_lt_upper_bound; lia).
  rewrite (hex_value_digit (b mod 16)) by (apply N.mod_lt; lia).
  rewrite IH. do 2 f_equal. symmetry. apply N.div_mod. lia.
Qed.

Lemma length_hexlify (bs : list N) :
  String.length (hexlify bs) = (2 * List.length bs)%nat.
Proof. induction bs as [| b bs IH]; simpl; [reflexivity | rewrite IH; lia]. Qed.

(** The printed form of a twelve-byte identifier parses back to it: a
    document's external id selects that document. *)
Lemma ObjectId_parse_str (o : ObjectId) :
  List.length o = 12%nat -> Forall (fun b => (b < 256)%N) o ->
  ObjectId_parse (ObjectId_str o) = Some o.
Proof.
  intros Hlen Hbytes. unfold ObjectId_parse, ObjectId_str.
  rewrite length_hexlify, Hlen. simpl. apply (fromhex_hexlify o Hbytes).
Qed.

(** ** [to_json] *)

Lemma truthy_doc_lookup (doc : document) (k : string) (v : value) :
  doc !! k = Some v -> truthy_doc (Some doc) = true.
Proof.
  intros Hk. unfold truthy_doc.
  destruct (Nat.eqb_spec (size doc) 0) as [Hz | Hnz]; [| reflexivity].
  apply map_size_empty_inv in Hz. subst doc. rewrite lookup_empty in Hk. discriminate.
Qed.



(** ** Voting: the direction check *)

Lemma bad_direction_test (body : VoteBody) :
  direction body <> "up" -> direction body <> "down" ->
  negb (String.eqb (direction body) "up" || String.eqb (direction body) "down") = true.
Proof.
  intros Hu Hd.
  apply String.eqb_neq in Hu. apply String.eqb_neq in Hd.
  rewrite Hu, Hd. reflexivity.
Qed.

(** C3: on a configured database, a vote whose direction is neither ["up"]
    nor ["down"] is answered with status 400 whatever the meme id, and the
    stored documents are the ones that were there before. *)
Theorem vote_bad_direction (d : Database) (ops : list db_op) (meme_id : string) (body : VoteBody) :
  direction body <> "up" -> direction body <> "down" ->
  fst (vote_meme meme_id body (World (Some d) ops))
    = Raise (HTTPException 400 (Text "Invalid direction")) /\
  db (snd (vote_meme meme_id body (World (Some d) ops))) = Some d.
Proof.
  intros Hu Hd. unfold vote_meme, bind, db_is_None. simpl.
  rewrite (bad_direction_test body Hu Hd). split; reflexivity.
Qed.

Lemma vote_bad_direction_witness :
  fst (vote_meme "0102030405060708090aabcd" {| direction := "left" |} sample_world)
    = Raise (HTTPException 400 (Text "Invalid direction")) /\
  db (snd (vote_meme "0102030405060708090aabcd" {| direction := "left" |} sample_world))
    = Some sample_db.
Proof.
  apply (vote_bad_direction sample_db [] _ {| direction := "left" |}); simpl; discriminate.
Defined.

(** C10: the direction is checked before the identifier is parsed and before
    the store is touched: with a direction outside ["up"], ["down"] the
    answer is the bad-request error for every id, well-formed or not, stored
    or not, and the log of store operations gains no entry. *)
Theorem vote_direction_checked_first (w : world) (meme_id : string) (body : VoteBody) :
  db w <> None ->
  direction body <> "up" -> direction body <> "down" ->
  vote_meme meme_id body w = (Raise (HTTPException 400 (Text "Invalid direction")), w) /\
  oplog (snd (vote_meme meme_id body w)) = oplog w /\
  forall other_id, vote_meme other_id body w = vote_meme meme_id body w.
Proof.
  intros Hdb Hu Hd.
  assert (Hall : forall i, vote_meme i body w
                   = (Raise (HTTPException 400 (Text "Invalid direction")), w)).
  { intros i. destruct w as [[d |] ops]; [| contradiction].
    unfold vote_meme, bind, db_is_None. simpl.
    rewrite (bad_direction_test body Hu Hd). reflexivity. }
  split; [apply Hall |].
  split; [rewrite Hall; reflexivity |].
  intros other. rewrite !Hall. reflexivity.
Qed.

Lemma vote_direction_checked_first_witness :
  vote_meme "xyz" {| direction := "left" |} sample_world
    = (Raise (HTTPException 400 (Text "Invalid direction")), sample_world).
Proof.
  apply (vote_direction_checked_first sample_world "xyz" {| direction := "left" |});
    simpl; discriminate.
Defined.

(** ** Retrieval: identifiers that select nothing *)

Lemma filter_ok_by_id (o : ObjectId) : filter_ok (by_id o) = true.
Proof. reflexivity. Qed.

(** C1, as the handler has it: on a configured database an id that is not a
    well-formed identifier is answered with status 500, the detail being the
    text of the parser's [InvalidId]; the store is not consulted. *)
Theorem get_meme_malformed_id (d : Database) (ops : list db_op) (meme_id : string) :
  ObjectId_parse meme_id = None ->
  get_meme meme_id (World (Some d) ops)
    = (Raise (HTTPException 500 (StrOf (InvalidId meme_id))), World (Some d) ops).
Proof.
  intros Hparse.
  unfold get_meme, bind, try_except, db_is_None, ObjectId_new. simpl.
  rewrite Hparse. reflexivity.
Qed.

Lemma get_meme_malformed_id_witness :
  get_meme "xyz" sample_world
    = (Raise (HTTPException 500 (StrOf (InvalidId "xyz"))), sample_world).
Proof. apply (get_meme_malformed_id sample_db [] "xyz"). reflexivity. Defined.

(** C1 fails as stated: the malformed id ["xyz"] is not answered with the
    not-found error. *)
Lemma get_meme_malformed_id_not_404 :
  ObjectId_parse "xyz" = None /\
  ~ not_found (fst (get_meme "xyz" sample_world)).
Proof.
  split; [reflexivity |].
  intros [dt Hdt]. vm_compute in Hdt. discriminate Hdt.
Qed.

(** The [raise] of the 404 sits inside the [try] whose handler catches every
    exception: a well-formed id that selects no Meme comes back as status 500
    around the 404 that was meant. *)
Lemma get_meme_absent (d : Database) (ops : list db_op) (meme_id : string) (o : ObjectId) :
  ObjectId_parse meme_id = Some o ->
  lookup_meme d o = None ->
  get_meme meme_id (World (Some d) ops)
    = (Raise (HTTPException 500 (StrOf (HTTPException 404 (Text "Meme not found")))),
       World (Some d) (ops ++ [OpFindOne "meme"])).
Proof.
  intros Hparse Hnone.
  unfold get_meme, bind, try_except, db_is_None, ObjectId_new, find_one, the_db, log, bind. simpl.
  rewrite Hparse. simpl. unfold lookup_meme in Hnone. rewrite Hnone. reflexivity.
Qed.

(** ** Voting on an id that selects nothing *)

Lemma update_first_no_match (f : list clause) (u : update) (l : collection) :
  List.find (matches f) l = None -> update_first f u l = NoMatch.
Proof.
  induction l as [| doc rest IH]; simpl; [reflexivity |].
  destruct (matches f doc); [discriminate |].
  intros Hrest. rewrite (IH Hrest). reflexivity.
Qed.

(** C4, as the handler has it: a vote ("up" or "down") on a well-formed id
    that selects no stored Meme is answered with the not-found error, and
    the database is left as it was. *)
Theorem vote_absent_meme (d : Database) (ops : list db_op) (meme_id : string)
    (o : ObjectId) (body : VoteBody) :
  direction body = "up" \/ direction body = "down" ->
  ObjectId_parse meme_id = Some o ->
  lookup_meme d o = None ->
  vote_meme meme_id body (World (Some d) ops)
    = (Raise (HTTPException 404 (Text "Meme not found")),
       World (Some d) (ops ++ [OpUpdateOne "meme"])).
Proof.
  intros Hdir Hparse Hnone.
  unfold vote_meme, bind, db_is_None, ObjectId_new, update_one, the_db, log, bind. simpl.
  assert (Hchk : negb (String.eqb (direction body) "up" || String.eqb (direction body) "down") = false).
  { destruct Hdir as [-> | ->]; reflexivity. }
  rewrite Hchk, Hparse. simpl.
  rewrite (update_first_no_match _ _ _ Hnone). reflexivity.
Qed.

Lemma vote_absent_meme_witness :
  vote_meme "000000000000000000000000" up sample_world
    = (Raise (HTTPException 404 (Text "Meme not found")),
       World (Some sample_db) [OpUpdateOne "meme"]).
Proof.
  apply (vote_absent_meme sample_db [] "000000000000000000000000"
           [0; 0; 0; 0; 0; 0; 0; 0; 0; 0; 0; 0]%N up);
    [left; reflexivity | reflexivity | reflexivity].
Defined.

(** C4 fails as stated: the id ["xyz"] belongs to no stored Meme, yet the
    vote is not answered with the not-found error: the parser's [InvalidId]
    escapes the handler. *)
Lemma vote_malformed_id_not_404 :
  (forall doc o, doc ∈ coll sample_db "meme" ->
     doc !! "_id" = Some (VOid o) -> ObjectId_str o <> "xyz") /\
  fst (vote_meme "xyz" up sample_world) = Raise (InvalidId "xyz") /\
  ~ not_found (fst (vote_meme "xyz" up sample_world)).
Proof.
  split.
  - intros doc o Hin Hid. vm_compute in Hin.
    apply list_elem_of_singleton in Hin. subst doc.
    vm_compute in Hid. injection Hid as <-. vm_compute. discriminate.
  - split; [reflexivity |].
    intros [dt Hdt]. vm_compute in Hdt. discriminate Hdt.
Qed.

(** ** Validation of a Meme payload *)

Lemma Meme_validate_errors (url_ok : string -> bool) (p : MemePayload) (e : string * error_kind) :
  e ∈ Meme_errors url_ok p ->
  Meme_validate url_ok p = inl (Meme_errors url_ok p).
Proof.
  intros He. unfold Meme_validate.
  destruct (Meme_errors url_ok p) as [| e0 errs] eqn:Herrs.
  - apply elem_of_nil in He. contradiction.
  - reflexivity.
Qed.

Lemma Meme_rejected (url_ok : string -> bool) (p : MemePayload) (e : string * error_kind) :
  e ∈ Meme_errors url_ok p ->
  exists errs, Meme_validate url_ok p = inl errs /\ e ∈ errs.
Proof.
  intros He. exists (Meme_errors url_ok p).
  split; [apply (Meme_validate_errors url_ok p e He) | exact He].
Qed.

(** C8: whatever the URL check, a Meme payload is rejected when it has no
    [title], when [upvotes] or [downvotes] is negative, when [image_url] is
    not a well-formed URL or when [sources] holds one that is not; a payload
    with only a title is accepted, with both counters 0, [tags] and
    [sources] empty and every other optional field absent. *)
Theorem Meme_validate_contract (url_ok : string -> bool) (p : MemePayload) :
  (p_title p = None ->
     exists errs, Meme_validate url_ok p = inl errs /\ ("title", Missing) ∈ errs) /\
  (forall n, p_upvotes p = Some n -> (n < 0)%Z ->
     exists errs, Meme_validate url_ok p = inl errs /\ ("upvotes", GreaterThanEqual) ∈ errs) /\
  (forall n, p_downvotes p = Some n -> (n < 0)%Z ->
     exists errs, Meme_validate url_ok p = inl errs /\ ("downvotes", GreaterThanEqual) ∈ errs) /\
  (forall u, p_image_url p = Some u -> url_ok u = false ->
     exists errs, Meme_validate url_ok p = inl errs /\ ("image_url", UrlParsing) ∈ errs) /\
  (forall us u, p_sources p = Some us -> u ∈ us -> url_ok u = false ->
     exists errs, Meme_validate url_ok p = inl errs /\ ("sources", UrlParsing) ∈ errs) /\
  (forall t, p = title_only t ->
     Meme_validate url_ok p
       = inr {| title := t; image_url := None; caption := None; origin_summary := None;
                first_seen_at := None; sources := []; tags := []; submitter := None;
                upvotes := 0; downvotes := 0 |}).
Proof.
  repeat split.
  - intros Ht. apply Meme_rejected. unfold Meme_errors, required. rewrite Ht.
    set_solver.
  - intros n Hn Hneg. apply Meme_rejected. unfold Meme_errors, ge0_field at 1. rewrite Hn.
    destruct (Z.leb_spec 0 n); [lia |]. set_solver.
  - intros n Hn Hneg. apply Meme_rejected. unfold Meme_errors, ge0_field at 2. rewrite Hn.
    destruct (Z.leb_spec 0 n); [lia |]. set_solver.
  - intros u Hu Hbad. apply Meme_rejected. unfold Meme_errors, url_field. rewrite Hu, Hbad.
    set_solver.
  - intros us u Hus Hin Hbad. apply Meme_rejected. unfold Meme_errors, url_list_field.
    rewrite Hus.
    assert (Hsrc : ("sources", UrlParsing)
                   ∈ flat_map (fun u => if url_ok u then [] else [("sources", UrlParsing)]) us).
    { apply list_elem_of_In, in_flat_map. exists u.
      split; [apply list_elem_of_In, Hin |]. rewrite Hbad. left. reflexivity. }
    apply elem_of_app. right. apply elem_of_app. right. apply elem_of_app. left.
    exact Hsrc.
  - intros t ->. reflexivity.
Qed.

Lemma Meme_validate_contract_witness :
  (exists errs, Meme_validate sample_url_ok negative_votes_payload = inl errs /\
                ("upvotes", GreaterThanEqual) ∈ errs) /\
  (upvotes <$> sum_rect (fun _ => option Meme) (fun _ => None) Some
                 (Meme_validate sample_url_ok (title_only "cat"))) = Some 0%Z.
Proof.
  split.
  - destruct (Meme_validate_contract sample_url_ok negative_votes_payload)
      as (_ & Hup & _).
    apply (Hup (-1)%Z); [reflexivity | lia].
  - destruct (Meme_validate_contract sample_url_ok (title_only "cat"))
      as (_ & _ & _ & _ & _ & Hok).
    rewrite (Hok "cat" eq_refl). reflexivity.
Defined.

(** ** The sort order *)

Lemma lex_leb_total (a b : list Z) : lex_leb a b = true \/ lex_leb b a = true.
Proof.
  revert b. induction a as [| x a IH]; intros [| y b]; simpl; auto.
  destruct (Z.ltb_spec x y); [auto |].
  destruct (Z.ltb_spec y x); [auto |].
  assert (x = y) as -> by lia. rewrite Z.eqb_refl. simpl. apply IH.
Qed.

Lemma lex_leb_trans (a b c : list Z) :
  lex_leb a b = true -> lex_leb b c = true -> lex_leb a c = true.
Proof.
  revert b c. induction a as [| x a IH]; intros [| y b] [| z c]; simpl; auto; try discriminate.
  intros Hab Hbc.
  apply orb_true_iff in Hab. apply orb_true_iff in Hbc. apply orb_true_iff.
  destruct Hab as [Hxy | Hxy]; destruct Hbc as [Hyz | Hyz].
  - left. apply Z.ltb_lt in Hxy, Hyz. apply Z.ltb_lt. lia.
  - apply andb_true_iff in Hyz as [Hyz _].
    apply Z.eqb_eq in Hyz. subst. auto.
  - apply andb_true_iff in Hxy as [Hxy _].
    apply Z.eqb_eq in Hxy. subst. auto.
  - apply andb_true_iff in Hxy as [Hxy Hab]. apply andb_true_iff in Hyz as [Hyz Hbc].
    apply Z.eqb_eq in Hxy, Hyz. subst. right.
    rewrite Z.eqb_refl. simpl. apply (IH b c Hab Hbc).
Qed.

#[global] Instance sort_rel_total key direction : Total (sort_rel key direction).
Proof.
  intros a b. unfold sort_rel. destruct (direction <? 0)%Z.
  - destruct (lex_leb_total (bson_key (a !! key)) (bson_key (b !! key))); auto.
  - apply lex_leb_total.
Qed.

#[global] Instance sort_rel_trans key direction : Transitive (sort_rel key direction).
Proof.
  intros a b c. unfold sort_rel. destruct (direction <? 0)%Z.
  - intros Hba Hcb. apply (lex_leb_trans _ _ _ Hcb Hba).
  - apply lex_leb_trans.
Qed.

Lemma newer_or_same_dates (a b : document) (ta tb : Z) :
  a !! "created_at" = Some (VDate ta) ->
  b !! "created_at" = Some (VDate tb) ->
  newer_or_same a b <-> (tb <= ta)%Z.
Proof.
  intros Ha Hb. unfold newer_or_same, sort_rel. simpl. rewrite Ha, Hb. simpl.
  destruct (Z.ltb_spec tb ta); simpl; [intuition lia |].
  destruct (Z.eqb_spec tb ta); simpl; intuition (try lia; try discriminate).
Qed.

(** A comment without a date sorts after every dated one. *)
Lemma newer_or_same_undated (a b : document) (ta : Z) :
  a !! "created_at" = Some (VDate ta) ->
  b !! "created_at" = None \/ b !! "created_at" = Some VNull ->
  newer_or_same a b /\ ~ newer_or_same b a.
Proof.
  intros Ha Hb. unfold newer_or_same, sort_rel. simpl. rewrite Ha.
  destruct Hb as [-> | ->]; simpl; split; (reflexivity || discriminate).
Qed.

Lemma refers_to_string (meme_id s : string) (c : document) :
  c !! "meme_id" = Some (VStr s) -> refers_to meme_id c = true <-> s = meme_id.
Proof.
  intros Hc. unfold refers_to. rewrite Hc. simpl.
  rewrite String.eqb_eq. split; congruence.
Qed.

Lemma matches_refers_to (meme_id : string) (c : document) :
  matches [Field "meme_id" (FEq (VStr meme_id))] c = refers_to meme_id c.
Proof. unfold matches, refers_to. simpl. apply andb_true_r. Qed.

(** ** Retrieval of an existing Meme *)

Lemma lookup_meme_found (d : Database) (o : ObjectId) (doc : document) :
  lookup_meme d o = Some doc ->
  matches (by_id o) doc = true /\ truthy_doc (Some doc) = true.
Proof.
  intros Hfind. unfold lookup_meme in Hfind.
  apply find_some in Hfind as [_ Hm]. split; [exact Hm |].
  unfold matches, by_id in Hm. simpl in Hm.
  destruct (doc !! "_id") as [v |] eqn:Hid; [| discriminate].
  apply (truthy_doc_lookup doc "_id" v Hid).
Qed.

Lemma get_meme_found (d : Database) (ops : list db_op) (meme_id : string)
    (o : ObjectId) (doc : document) :
  ObjectId_parse meme_id = Some o ->
  lookup_meme d o = Some doc ->
  get_meme meme_id (World (Some d) ops)
    = (Return (VDoc (<["comments" :=
                        json_list (merge_sort newer_or_same
                                     (List.filter (refers_to meme_id) (coll d "comment")))]>
                       (to_json doc))),
       World (Some d) ((ops ++ [OpFindOne "meme"]) ++ [OpFind "comment"])).
Proof.
  intros Hparse Hfind.
  destruct (lookup_meme_found d o doc Hfind) as [_ Htruthy].
  unfold get_meme, bind, try_except, db_is_None, ObjectId_new, find_one, find_sort,
    the_db, log, bind. simpl.
  rewrite Hparse. simpl. unfold lookup_meme in Hfind. rewrite Hfind.
  rewrite Htruthy. simpl. unfold ret.
  rewrite (filter_ext _ _ (matches_refers_to meme_id)).
  reflexivity.
Qed.

Lemma three_sorted (c1 c2 c3 : document) (t1 t2 t3 : Z) (l : list document) :
  c1 !! "created_at" = Some (VDate t1) ->
  c2 !! "created_at" = Some (VDate t2) ->
  c3 !! "created_at" = Some (VDate t3) ->
  (t1 < t2)%Z -> (t2 < t3)%Z ->
  l ≡ₚ [c1; c2; c3] -> StronglySorted newer_or_same l -> l = [c3; c2; c1].
Proof.
  intros H1 H2 H3 H12 H23 Hperm Hsorted.
  assert (Hn : forall a b ta tb, a !! "created_at" = Some (VDate ta) ->
                 b !! "created_at" = Some (VDate tb) -> newer_or_same a b -> (tb <= ta)%Z).
  { intros a b ta tb Ha Hb. apply (newer_or_same_dates a b ta tb Ha Hb). }
  apply (StronglySorted_unique_strong newer_or_same); [| exact Hsorted | |].
  - intros x1 x2 Hx1 Hx2 R12 R21.
    rewrite Hperm in Hx1.
    repeat (apply elem_of_cons in Hx1 as [-> | Hx1]);
      [| | | apply elem_of_nil in Hx1; contradiction];
      repeat (apply elem_of_cons in Hx2 as [-> | Hx2]);
      try (apply elem_of_nil in Hx2; contradiction);
      try reflexivity; exfalso;
      repeat match goal with
        | Ha : ?a !! "created_at" = Some (VDate ?ta),
          Hb : ?b !! "created_at" = Some (VDate ?tb),
          R : newer_or_same ?a ?b |- _ => apply (Hn a b ta tb Ha Hb) in R
        end; lia.
  - repeat constructor;
      try (apply (newer_or_same_dates _ _ _ _ H3 H2); lia);
      try (apply (newer_or_same_dates _ _ _ _ H3 H1); lia);
      try (apply (newer_or_same_dates _ _ _ _ H2 H1); lia).
  - rewrite Hperm. symmetry. apply (reverse_Permutation [c1; c2; c3]).
Qed.

(** C6, as the handler has it: retrieving an existing Meme by the id string
    [meme_id] answers with its document (through [to_json]) and, under
    [comments], the stored Comments whose [meme_id] is that very string,
    each exactly once, sorted on [created_at] descending; when these were
    stored at times [t1 < t2 < t3] they come back in the order [t3], [t2],
    [t1].  The database is not changed. *)
Theorem get_meme_comments_newest_first (d : Database) (ops : list db_op)
    (meme_id : string) (o : ObjectId) (doc : document) :
  ObjectId_parse meme_id = Some o ->
  lookup_meme d o = Some doc ->
  exists comments : list document,
    fst (get_meme meme_id (World (Some d) ops))
      = Return (VDoc (<["comments" := json_list comments]> (to_json doc))) /\
    db (snd (get_meme meme_id (World (Some d) ops))) = Some d /\
    comments ≡ₚ List.filter (refers_to meme_id) (coll d "comment") /\
    (forall c s, c !! "meme_id" = Some (VStr s) -> refers_to meme_id c = true <-> s = meme_id) /\
    StronglySorted newer_or_same comments /\
    forall c1 c2 c3 t1 t2 t3,
      List.filter (refers_to meme_id) (coll d "comment") = [c1; c2; c3] ->
      c1 !! "created_at" = Some (VDate t1) ->
      c2 !! "created_at" = Some (VDate t2) ->
      c3 !! "created_at" = Some (VDate t3) ->
      (t1 < t2)%Z -> (t2 < t3)%Z ->
      comments = [c3; c2; c1].
Proof.
  intros Hparse Hfind.
  exists (merge_sort newer_or_same (List.filter (refers_to meme_id) (coll d "comment"))).
  rewrite (get_meme_found d ops meme_id o doc Hparse Hfind). simpl.
  split; [reflexivity |]. split; [reflexivity |].
  split; [apply merge_sort_Permutation |].
  split; [intros c s0 Hc; apply (refers_to_string meme_id s0 c Hc) |].
  split; [apply (StronglySorted_merge_sort newer_or_same) |].
  intros c1 c2 c3 t1 t2 t3 Hthree H1 H2 H3 H12 H23.
  apply (three_sorted c1 c2 c3 t1 t2 t3); try assumption.
  - rewrite <- Hthree. apply merge_sort_Permutation.
  - apply (StronglySorted_merge_sort newer_or_same).
Qed.

Lemma get_meme_comments_newest_first_witness :
  fst (get_meme sample_id (World (Some sample_db_comments) []))
    = Return (VDoc (<["comments" := json_list [sample_comment 30; sample_comment 20;
                                                sample_comment 10]]>
                      (to_json sample_doc))).
Proof.
  destruct (get_meme_comments_newest_first sample_db_comments [] sample_id sample_oid
              sample_doc eq_refl eq_refl) as (comments & Hret & _ & _ & _ & _ & Horder).
  rewrite Hret.
  rewrite (Horder (sample_comment 10) (sample_comment 20) (sample_comment 30) 10 20 30)%Z;
    [reflexivity | reflexivity | reflexivity | reflexivity | reflexivity | lia | lia].
Defined.

(** C6 fails as stated: the sample Meme is stored, three stored Comments
    carry its external id as their [meme_id], and yet a retrieval that
    writes the same identifier with capital digits finds the Meme and
    embeds no Comment at all. *)
Lemma get_meme_capital_id_no_comments :
  ObjectId_parse sample_id_upper = Some sample_oid /\
  lookup_meme sample_db_comments sample_oid = Some sample_doc /\
  Forall (fun c => c !! "meme_id" = Some (VStr (ObjectId_str sample_oid)))
         (coll sample_db_comments "comment") /\
  List.length (coll sample_db_comments "comment") = 3%nat /\
  fst (get_meme sample_id_upper (World (Some sample_db_comments) []))
    = Return (VDoc (<["comments" := json_list []]> (to_json sample_doc))).
Proof.
  split; [reflexivity |]. split; [reflexivity |].
  split; [repeat constructor |]. split; reflexivity.
Qed.

(** ** Comment creation *)

Lemma path_id_overwrites (path_id : string) (c1 c2 : Comment) :
  author c1 = author c2 -> text c1 = text c2 -> created_at c1 = created_at c2 ->
  <["meme_id" := VStr path_id]> (Comment_dump c1)
    = <["meme_id" := VStr path_id]> (Comment_dump c2).
Proof.
  intros Ha Ht Hc. unfold Comment_dump. simpl.
  rewrite !insert_insert_eq, Ha, Ht, Hc. reflexivity.
Qed.

Lemma storable_comment (path_id : string) (comment : Comment) :
  storable (<["meme_id" := VStr path_id]> (Comment_dump comment)) = true.
Proof.
  destruct comment as [m [a |] t [c |]]; reflexivity.
Qed.

Lemma add_comment_found (d : Database) (ops : list db_op) (path_id : string)
    (o : ObjectId) (m : document) (comment : Comment) (new_id : ObjectId) :
  ObjectId_parse path_id = Some o ->
  lookup_meme d o = Some m ->
  existsb (has_id new_id) (coll d "comment") = false ->
  add_comment path_id comment new_id (World (Some d) ops)
    = (Return (VDoc {["id" := VStr (ObjectId_str new_id)]}),
       World (Some (<["comment" := coll d "comment" ++ [stamped path_id comment new_id]]> d))
             ((ops ++ [OpFindOne "meme"]) ++ [OpInsertOne "comment"])).
Proof.
  intros Hparse Hfind Hfresh.
  destruct (lookup_meme_found d o m Hfind) as [_ Htruthy].
  unfold add_comment, bind, db_is_None, ObjectId_new, find_one, the_db, log, bind. simpl.
  rewrite Hparse. simpl. unfold lookup_meme in Hfind. rewrite Hfind, Htruthy. simpl.
  unfold create_document, insert_one, bind, the_db, log, put_coll. simpl.
  rewrite storable_comment. simpl. rewrite Hfresh. reflexivity.
Qed.

Lemma add_comment_absent (d : Database) (ops : list db_op) (path_id : string)
    (o : ObjectId) (comment : Comment) (new_id : ObjectId) :
  ObjectId_parse path_id = Some o ->
  lookup_meme d o = None ->
  add_comment path_id comment new_id (World (Some d) ops)
    = (Raise (HTTPException 404 (Text "Meme not found")),
       World (Some d) (ops ++ [OpFindOne "meme"])).
Proof.
  intros Hparse Hnone.
  unfold add_comment, bind, db_is_None, ObjectId_new, find_one, the_db, log, bind. simpl.
  rewrite Hparse. simpl. unfold lookup_meme in Hnone. rewrite Hnone. reflexivity.
Qed.

(** C7, as the handler has it, for a path id that is a well-formed
    identifier.  When it selects a stored Meme (and the generated identifier
    is unused) one Comment document is appended, its [meme_id] is the path
    id, and the [meme_id] of the body has no influence on the outcome.  When
    it selects no stored Meme the answer is the not-found error and the
    database is left as it was. *)
Theorem add_comment_contract (d : Database) (ops : list db_op) (path_id : string)
    (o : ObjectId) (comment : Comment) (new_id : ObjectId) :
  ObjectId_parse path_id = Some o ->
  (forall m, lookup_meme d o = Some m ->
     existsb (has_id new_id) (coll d "comment") = false ->
     fst (add_comment path_id comment new_id (World (Some d) ops))
       = Return (VDoc {["id" := VStr (ObjectId_str new_id)]}) /\
     db (snd (add_comment path_id comment new_id (World (Some d) ops)))
       = Some (<["comment" := coll d "comment" ++ [stamped path_id comment new_id]]> d) /\
     stamped path_id comment new_id !! "meme_id" = Some (VStr path_id)) /\
  (forall w other, author other = author comment -> text other = text comment ->
     created_at other = created_at comment ->
     add_comment path_id other new_id w = add_comment path_id comment new_id w) /\
  (lookup_meme d o = None ->
     fst (add_comment path_id comment new_id (World (Some d) ops))
       = Raise (HTTPException 404 (Text "Meme not found")) /\
     db (snd (add_comment path_id comment new_id (World (Some d) ops))) = Some d).
Proof.
  intros Hparse. split; [| split].
  - intros m Hfind Hfresh.
    rewrite (add_comment_found d ops path_id o m comment new_id Hparse Hfind Hfresh). simpl.
    split; [reflexivity |]. split; [reflexivity |].
    unfold stamped. rewrite lookup_insert_ne by discriminate. apply lookup_insert_eq.
  - intros w other Ha Ht Hc. unfold add_comment.
    rewrite (path_id_overwrites path_id other comment Ha Ht Hc). reflexivity.
  - intros Hnone.
    rewrite (add_comment_absent d ops path_id o comment new_id Hparse Hnone).
    split; reflexivity.
Qed.

Lemma add_comment_contract_witness :
  db (snd (add_comment sample_id sample_comment_body [7%N] sample_world))
    = Some (<["comment" := [stamped sample_id sample_comment_body [7%N]]]> sample_db) /\
  fst (add_comment "000000000000000000000000" sample_comment_body [7%N] sample_world)
    = Raise (HTTPException 404 (Text "Meme not found")).
Proof.
  split.
  - destruct (add_comment_contract sample_db [] sample_id sample_oid sample_comment_body
                [7%N] eq_refl) as (Hfound & _ & _).
    destruct (Hfound sample_doc eq_refl eq_refl) as (_ & Hdb & _). exact Hdb.
  - destruct (add_comment_contract sample_db [] "000000000000000000000000"
                [0; 0; 0; 0; 0; 0; 0; 0; 0; 0; 0; 0]%N sample_comment_body
                [7%N] eq_refl) as (_ & _ & Habsent).
    destruct (Habsent eq_refl) as [Hret _]. exact Hret.
Defined.

(** C7 fails as stated: no Meme goes by the path id ["xyz"], yet the call is
    not answered with the not-found error: the parser's [InvalidId] escapes
    the handler (no Comment is created). *)
Lemma add_comment_malformed_id_not_404 :
  (forall doc o, doc ∈ coll sample_db "meme" ->
     doc !! "_id" = Some (VOid o) -> ObjectId_str o <> "xyz") /\
  add_comment "xyz" sample_comment_body [7%N] sample_world
    = (Raise (InvalidId "xyz"), sample_world) /\
  ~ not_found (fst (add_comment "xyz" sample_comment_body [7%N] sample_world)).
Proof.
  split.
  - intros doc o Hin Hid. vm_compute in Hin.
    apply list_elem_of_singleton in Hin. subst doc.
    vm_compute in Hid. injection Hid as <-. vm_compute. discriminate.
  - split; [reflexivity |].
    intros [dt Hdt]. vm_compute in Hdt. discriminate Hdt.
Qed.

(** ** Voting on an existing Meme *)

Lemma matches_by_id_ext (o : ObjectId) (doc doc' : document) :
  doc' !! "_id" = doc !! "_id" -> matches (by_id o) doc' = matches (by_id o) doc.
Proof. intros Hid. unfold matches, by_id. simpl. rewrite Hid. reflexivity. Qed.

(** What one vote does to the document it lands on. *)
Lemma apply_vote_update (dir field : string) (doc : document) :
  field = (if String.eqb dir "up" then "upvotes" else "downvotes") ->
  apply_update (vote_update dir) doc =
    match doc !! field with
    | None => Some (<["updated_at" := VNull]> (<[field := VInt 1]> doc))
    | Some (VInt m) =>
        if in_int64 (m + 1)
        then Some (<["updated_at" := VNull]> (<[field := VInt (m + 1)]> doc))
        else None
    | Some _ => None
    end.
Proof.
  intros ->. unfold apply_update, vote_update. simpl.
  destruct (String.eqb dir "up"); simpl.
  - destruct (doc !! "upvotes") as [[] |]; try reflexivity.
    destruct (in_int64 (n + 1)); reflexivity.
  - destruct (doc !! "downvotes") as [[] |]; try reflexivity.
    destruct (in_int64 (n + 1)); reflexivity.
Qed.

Lemma update_first_correct (f : list clause) (u : update) (l : collection) :
  update_first_spec f u l (update_first f u l).
Proof.
  induction l as [| x rest IH]; simpl.
  - constructor. reflexivity.
  - destruct (matches f x) eqn:Hx.
    + destruct (apply_update u x) as [x' |] eqn:Hu.
      * apply (spec_updated f u (x :: rest) [] x x' rest); auto.
      * apply (spec_write_error f u (x :: rest) [] x rest); auto.
    + destruct IH as [Hnone | pre doc doc' post -> Hpre Hdoc Hu | pre doc post -> Hpre Hdoc Hu].
      * constructor. simpl. rewrite Hx. exact Hnone.
      * apply (spec_updated f u (x :: pre ++ doc :: post) (x :: pre) doc doc' post); auto.
      * apply (spec_write_error f u (x :: pre ++ doc :: post) (x :: pre) doc post); auto.
Qed.

Lemma find_skip_prefix (p : document -> bool) (pre post : collection) (doc : document) :
  Forall (fun x => p x = false) pre -> p doc = true ->
  List.find p (pre ++ doc :: post) = Some doc.
Proof.
  intros Hpre Hdoc. induction Hpre as [| x pre Hx _ IH]; simpl.
  - rewrite Hdoc. reflexivity.
  - rewrite Hx. exact IH.
Qed.

Lemma find_split (p : document -> bool) (l : collection) (doc : document) :
  List.find p l = Some doc ->
  exists pre post, l = pre ++ doc :: post /\ Forall (fun x => p x = false) pre /\ p doc = true.
Proof.
  induction l as [| x rest IH]; simpl; [discriminate |].
  destruct (p x) eqn:Hx.
  - intros [= ->]. exists [], rest. auto.
  - intros Hrest. destruct (IH Hrest) as (pre & post & -> & Hpre & Hdoc).
    exists (x :: pre), post. auto.
Qed.

Lemma coll_insert_eq (d : Database) (name : string) (c : collection) :
  coll (<[name := c]> d) name = c.
Proof. unfold coll. rewrite lookup_insert_eq. reflexivity. Qed.

Lemma coll_insert_ne (d : Database) (name other : string) (c : collection) :
  name <> other -> coll (<[name := c]> d) other = coll d other.
Proof. intros Hne. unfold coll. rewrite lookup_insert_ne by exact Hne. reflexivity. Qed.

(** The handler on a configured database, past its two guards. *)
Lemma vote_meme_run (d : Database) (ops : list db_op) (meme_id : string)
    (o : ObjectId) (body : VoteBody) :
  direction body = "up" \/ direction body = "down" ->
  ObjectId_parse meme_id = Some o ->
  vote_meme meme_id body (World (Some d) ops) =
    match update_first (by_id o) (vote_update (direction body)) (coll d "meme") with
    | NoMatch => (Raise (HTTPException 404 (Text "Meme not found")),
                  World (Some d) (ops ++ [OpUpdateOne "meme"]))
    | Updated c' => (vote_ok, World (Some (<["meme" := c']> d)) (ops ++ [OpUpdateOne "meme"]))
    | WriteError => (Raise (OperationFailure "write error"),
                     World (Some d) (ops ++ [OpUpdateOne "meme"]))
    end.
Proof.
  intros Hdir Hparse.
  unfold vote_meme, bind, db_is_None, ObjectId_new, update_one, the_db, log, put_coll, bind.
  simpl.
  assert (Hchk : negb (String.eqb (direction body) "up" || String.eqb (direction body) "down") = false).
  { destruct Hdir as [-> | ->]; reflexivity. }
  rewrite Hchk, Hparse. simpl.
  destruct (update_first (by_id o) (vote_update (direction body)) (coll d "meme"));
    reflexivity.
Qed.

Lemma vote_update_keeps_id (dir : string) (doc doc' : document) :
  apply_update (vote_update dir) doc = Some doc' -> doc' !! "_id" = doc !! "_id".
Proof.
  rewrite (apply_vote_update dir _ doc eq_refl).
  destruct (String.eqb dir "up");
    (destruct (doc !! _) as [[] |]; try discriminate;
     try (destruct (in_int64 _); try discriminate);
     intros [= <-]; rewrite !lookup_insert_ne by discriminate; reflexivity).
Qed.

Lemma in_int64_bounds (n : Z) :
  in_int64 n = true <-> (int64_min <= n <= int64_max)%Z.
Proof. unfold in_int64. rewrite andb_true_iff, !Z.leb_le. reflexivity. Qed.

Lemma update_first_at (f : list clause) (u : update) (pre post : collection)
    (doc doc' : document) :
  Forall (fun x => matches f x = false) pre ->
  matches f doc = true ->
  apply_update u doc = Some doc' ->
  update_first f u (pre ++ doc :: post) = Updated (pre ++ doc' :: post).
Proof.
  intros Hpre Hdoc Hu. induction Hpre as [| x pre Hx _ IH]; simpl.
  - rewrite Hdoc, Hu. reflexivity.
  - rewrite Hx, IH. reflexivity.
Qed.

(** The document a vote in direction [dir] makes of [doc] when the counter
    it raises stands at [m] and can still be raised. *)
Lemma voted_doc (dir field : string) (doc : document) (m : Z) :
  field = (if String.eqb dir "up" then "upvotes" else "downvotes") ->
  doc !! field = Some (VInt m) ->
  in_int64 (m + 1) = true ->
  apply_update (vote_update dir) doc
    = Some (<["updated_at" := VNull]> (<[field := VInt (m + 1)]> doc)).
Proof.
  intros Hfield Hm Hfit.
  rewrite (apply_vote_update dir field doc Hfield), Hm, Hfit. reflexivity.
Qed.

(** One vote, told from the place of the document it lands on. *)
Lemma vote_meme_at (d : Database) (ops : list db_op) (meme_id : string) (o : ObjectId)
    (body : VoteBody) (field : string) (pre post : collection) (doc : document) (m : Z) :
  direction body = "up" \/ direction body = "down" ->
  field = (if String.eqb (direction body) "up" then "upvotes" else "downvotes") ->
  ObjectId_parse meme_id = Some o ->
  coll d "meme" = pre ++ doc :: post ->
  Forall (fun x => matches (by_id o) x = false) pre ->
  matches (by_id o) doc = true ->
  doc !! field = Some (VInt m) ->
  in_int64 (m + 1) = true ->
  vote_meme meme_id body (World (Some d) ops)
    = (vote_ok,
       World (Some (<["meme" := pre ++ <["updated_at" := VNull]> (<[field := VInt (m + 1)]> doc)
                                     :: post]> d))
             (ops ++ [OpUpdateOne "meme"])).
Proof.
  intros Hdir Hfield Hparse Hsplit Hpre Hdoc Hm Hfit.
  rewrite (vote_meme_run d ops meme_id o body Hdir Hparse), Hsplit.
  rewrite (update_first_at _ _ pre post doc _ Hpre Hdoc
             (voted_doc (direction body) field doc m Hfield Hm Hfit)).
  reflexivity.
Qed.

(** [n] votes in a row on the document at a known place. *)
Lemma votes_at (meme_id : string) (o : ObjectId) (body : VoteBody) (field : string)
    (pre post : collection) (n : nat) :
  direction body = "up" \/ direction body = "down" ->
  field = (if String.eqb (direction body) "up" then "upvotes" else "downvotes") ->
  ObjectId_parse meme_id = Some o ->
  Forall (fun x => matches (by_id o) x = false) pre ->
  forall (d : Database) (ops : list db_op) (doc : document) (m : Z),
    coll d "meme" = pre ++ doc :: post ->
    matches (by_id o) doc = true ->
    doc !! field = Some (VInt m) ->
    (int64_min <= m)%Z -> (m + Z.of_nat n <= int64_max)%Z ->
    exists w' d' doc',
      run_all (replicate n (vote_meme meme_id body)) (World (Some d) ops)
        = (replicate n vote_ok, w') /\
      db w' = Some d' /\
      coll d' "meme" = pre ++ doc' :: post /\
      (forall other, other <> "meme" -> d' !! other = d !! other) /\
      doc' !! field = Some (VInt (m + Z.of_nat n)) /\
      forall k, k <> field -> k <> "updated_at" -> doc' !! k = doc !! k.
Proof.
  intros Hdir Hfield Hparse Hpre.
  assert (Hfu : field <> "updated_at")
    by (subst field; destruct (String.eqb _ _); discriminate).
  assert (Hfi : field <> "_id")
    by (subst field; destruct (String.eqb _ _); discriminate).
  induction n as [| n IH]; intros d ops doc m Hsplit Hdoc Hm Hlo Hhi.
  - exists (World (Some d) ops), d, doc. simpl.
    rewrite Z.add_0_r. repeat split; auto.
  - assert (Hfit : in_int64 (m + 1) = true) by (apply in_int64_bounds; lia).
    pose proof (vote_meme_at d ops meme_id o body field pre post doc m
                  Hdir Hfield Hparse Hsplit Hpre Hdoc Hm Hfit) as Hrun.
    set (doc1 := <["updated_at" := VNull]> (<[field := VInt (m + 1)]> doc)) in *.
    set (d1 := <["meme" := pre ++ doc1 :: post]> d) in *.
    assert (Hdoc1 : matches (by_id o) doc1 = true).
    { rewrite (matches_by_id_ext o doc doc1); [exact Hdoc |].
      unfold doc1. rewrite !lookup_insert_ne by congruence. reflexivity. }
    assert (Hm1 : doc1 !! field = Some (VInt (m + 1))).
    { unfold doc1. rewrite lookup_insert_ne by congruence. apply lookup_insert_eq. }
    destruct (IH d1 (ops ++ [OpUpdateOne "meme"]) doc1 (m + 1)%Z
                (coll_insert_eq _ _ _) Hdoc1 Hm1)
      as (w' & d' & doc' & Hrest & Hdb & Hcoll & Hframe & Hm' & Hother); [lia | lia |].
    exists w', d', doc'. simpl. rewrite Hrun, Hrest.
    split; [reflexivity |]. split; [exact Hdb |]. split; [exact Hcoll |].
    split; [| split].
    + intros other Hne. rewrite (Hframe other Hne). unfold d1.
      apply lookup_insert_ne. congruence.
    + rewrite Hm'. do 2 f_equal. lia.
    + intros k Hk1 Hk2. rewrite (Hother k Hk1 Hk2). unfold doc1.
      rewrite !lookup_insert_ne by congruence. reflexivity.
Qed.

Lemma matches_by_id_oid (o o' : ObjectId) (x : document) :
  x !! "_id" = Some (VOid o') -> matches (by_id o) x = bool_decide (o = o').
Proof.
  intros Hid. unfold matches, by_id. simpl. rewrite Hid. simpl. apply andb_true_r.
Qed.

(** Where identifiers are distinct, the filter on an identifier selects the
    one document that carries it. *)
Lemma distinct_id_split (l : collection) (i : nat) (doc : document) (o : ObjectId) :
  ids_distinct l ->
  l !! i = Some doc ->
  doc !! "_id" = Some (VOid o) ->
  l = take i l ++ doc :: drop (S i) l /\
  List.length (take i l) = i /\
  Forall (fun x => matches (by_id o) x = false) (take i l) /\
  matches (by_id o) doc = true.
Proof.
  intros [Hoids Huniq] Hi Hid.
  split; [symmetry; apply take_drop_middle, Hi |].
  split; [apply length_take_le, Nat.lt_le_incl, (lookup_lt_Some _ _ _ Hi) |].
  split.
  - apply Forall_lookup. intros j x Hj.
    assert (Hlt : (j < i)%nat).
    { apply lookup_lt_Some in Hj. rewrite length_take in Hj. lia. }
    rewrite lookup_take_lt in Hj by exact Hlt.
    destruct (Hoids j x Hj) as [o' Ho'].
    rewrite (matches_by_id_oid o o' x Ho').
    apply bool_decide_eq_false_2. intros ->.
    assert (j = i) by (apply (Huniq j i x doc Hj Hi); congruence). lia.
  - rewrite (matches_by_id_oid o o doc Hid). apply bool_decide_eq_true_2. reflexivity.
Qed.

Lemma lookup_middle_other {A} (pre post : list A) (a b : A) (j : nat) :
  j <> List.length pre -> (pre ++ b :: post) !! j = (pre ++ a :: post) !! j.
Proof.
  intros Hj. destruct (Nat.lt_ge_cases j (List.length pre)) as [Hlt | Hge].
  - rewrite !lookup_app_l by exact Hlt. reflexivity.
  - rewrite !lookup_app_r by exact Hge.
    destruct (j - List.length pre)%nat as [| k] eqn:Hk; [lia | reflexivity].
Qed.

(** ** Counters over the life of the store *)

Lemma doc_le_refl (doc : document) : doc_le doc doc.
Proof. unfold doc_le. split; [reflexivity | lia]. Qed.

Lemma grows_refl (l : collection) : grows l l.
Proof. intros i doc Hi. exists doc. split; [exact Hi | apply doc_le_refl]. Qed.

Lemma grows_append (l extra : collection) : grows l (l ++ extra).
Proof.
  intros i doc Hi. exists doc. split; [| apply doc_le_refl].
  apply lookup_app_l_Some. exact Hi.
Qed.

Lemma grows_middle (pre post : collection) (doc doc' : document) :
  doc_le doc doc' -> grows (pre ++ doc :: post) (pre ++ doc' :: post).
Proof.
  intros Hle i x Hi.
  destruct (Nat.lt_trichotomy i (List.length pre)) as [Hlt | [-> | Hgt]].
  - exists x. split; [| apply doc_le_refl].
    rewrite lookup_app_l in Hi |- * by exact Hlt. exact Hi.
  - rewrite list_lookup_middle in Hi by reflexivity. injection Hi as <-.
    exists doc'. split; [| exact Hle].
    apply list_lookup_middle. reflexivity.
  - exists x. split; [| apply doc_le_refl].
    rewrite lookup_app_r in Hi |- * by lia.
    destruct (i - List.length pre)%nat as [| j] eqn:Hj; [lia |]. exact Hi.
Qed.

Lemma vote_update_le (dir : string) (doc doc' : document) :
  apply_update (vote_update dir) doc = Some doc' -> doc_le doc doc'.
Proof.
  intros Hu. split; [apply (vote_update_keeps_id dir doc doc' Hu) |].
  rewrite (apply_vote_update dir _ doc eq_refl) in Hu. unfold counter.
  destruct (String.eqb dir "up").
  - destruct (doc !! "upvotes") as [[] |] eqn:Hup; try discriminate Hu;
      try (destruct (in_int64 _); try discriminate Hu); injection Hu as <-;
      rewrite !(lookup_insert_ne _ "updated_at") by discriminate;
      rewrite lookup_insert_eq, (lookup_insert_ne _ "upvotes" "downvotes") by discriminate;
      destruct (doc !! "downvotes") as [[] |]; lia.
  - destruct (doc !! "downvotes") as [[] |] eqn:Hdn; try discriminate Hu;
      try (destruct (in_int64 _); try discriminate Hu); injection Hu as <-;
      rewrite !(lookup_insert_ne _ "updated_at") by discriminate;
      rewrite lookup_insert_eq, (lookup_insert_ne _ "downvotes" "upvotes") by discriminate;
      destruct (doc !! "upvotes") as [[] |]; lia.
Qed.

Lemma vote_update_counted (dir : string) (doc doc' : document) :
  dir = "up" \/ dir = "down" ->
  apply_update (vote_update dir) doc = Some doc' -> counted doc -> counted doc'.
Proof.
  intros Hdir Hu (u & dn & Hup & Hdn & Hu0 & Hdn0).
  rewrite (apply_vote_update dir _ doc eq_refl) in Hu.
  destruct Hdir as [-> | ->]; simpl in Hu.
  - rewrite Hup in Hu. destruct (in_int64 (u + 1)); [| discriminate Hu].
    injection Hu as <-. exists (u + 1)%Z, dn.
    rewrite !(lookup_insert_ne _ "updated_at") by discriminate.
    rewrite lookup_insert_eq, lookup_insert_ne by discriminate.
    repeat split; try assumption; lia.
  - rewrite Hdn in Hu. destruct (in_int64 (dn + 1)); [| discriminate Hu].
    injection Hu as <-. exists u, (dn + 1)%Z.
    rewrite !(lookup_insert_ne _ "updated_at") by discriminate.
    rewrite lookup_insert_eq, lookup_insert_ne by discriminate.
    repeat split; try assumption; lia.
Qed.

Lemma ge0_field_nil (name : string) (v : option Z) :
  ge0_field name v = [] -> (0 <= default 0 v)%Z.
Proof.
  destruct v as [n |]; simpl; [| lia].
  destruct (Z.leb_spec 0 n); [auto | discriminate].
Qed.

Lemma Meme_validate_counts (url_ok : string -> bool) (body : MemePayload) (meme : Meme) :
  Meme_validate url_ok body = inr meme -> (0 <= upvotes meme)%Z /\ (0 <= downvotes meme)%Z.
Proof.
  unfold Meme_validate.
  destruct (Meme_errors url_ok body) as [| e errs] eqn:Herrs; [| discriminate].
  destruct (p_title body) as [t |]; [| discriminate].
  intros [= <-]. simpl.
  unfold Meme_errors in Herrs.
  do 3 (apply app_eq_nil in Herrs as [_ Herrs]).
  apply app_eq_nil in Herrs as [Hup Hdn].
  split; [apply (ge0_field_nil _ _ Hup) | apply (ge0_field_nil _ _ Hdn)].
Qed.

Lemma memes_step_grows (url_ok : string -> bool) (l l' : collection) :
  memes_step url_ok l l' -> grows l l'.
Proof.
  intros [l0 | l0 body meme new_id _ | l0 l1 o dir _ Hupd].
  - apply grows_refl.
  - apply grows_append.
  - destruct (update_first_correct (by_id o) (vote_update dir) l0)
      as [Hnone | pre doc doc' post -> Hpre Hdoc Hu | pre doc post -> Hpre Hdoc Hu];
      try discriminate.
    injection Hupd as <-. apply grows_middle. apply (vote_update_le dir doc doc' Hu).
Qed.

Lemma memes_step_counted (url_ok : string -> bool) (l l' : collection) :
  memes_step url_ok l l' -> Forall counted l -> Forall counted l'.
Proof.
  intros [l0 | l0 body meme new_id Hvalid | l0 l1 o dir Hdir Hupd] Hall.
  - exact Hall.
  - apply Forall_app. split; [exact Hall |].
    apply Forall_singleton.
    destruct (Meme_validate_counts url_ok body meme Hvalid) as [Hup Hdn].
    exists (upvotes meme), (downvotes meme).
    repeat split; try assumption; reflexivity.
  - destruct (update_first_correct (by_id o) (vote_update dir) l0)
      as [Hnone | pre doc doc' post -> Hpre Hdoc Hu | pre doc post -> Hpre Hdoc Hu];
      try discriminate.
    injection Hupd as <-.
    apply Forall_app in Hall as [Hpre' Hrest].
    apply Forall_cons in Hrest as [Hd Hpost].
    apply Forall_app. split; [exact Hpre' |].
    apply Forall_cons. split; [| exact Hpost].
    apply (vote_update_counted dir doc doc' Hdir Hu Hd).
Qed.

Ltac run_handler :=
  repeat progress
    (unfold bind, try_except, db_is_None, ObjectId_new, find_one, find_sort, update_one,
       insert_one, create_document, get_documents, the_db, log, put_coll, ret, raise;
     simpl).

Lemma get_meme_keeps_db (id : string) (w : world) : db (snd (get_meme id w)) = db w.
Proof.
  destruct w as [[d |] ops]; unfold get_meme; run_handler; [| reflexivity].
  destruct (ObjectId_parse id) as [o |]; simpl; [| reflexivity].
  destruct (List.find (matches (by_id o)) (coll d "meme")) as [doc |]; simpl; [| reflexivity].
  destruct (size doc =? 0)%nat; reflexivity.
Qed.

Lemma list_memes_keeps_db (q tag : option string) (limit : Z) (w : world) :
  db (snd (list_memes q tag limit w)) = db w.
Proof.
  destruct w as [[d |] ops]; unfold list_memes; run_handler; [| reflexivity].
  destruct (filter_ok (filter_dict q tag)); reflexivity.
Qed.

Lemma add_comment_keeps_memes (id : string) (comment : Comment) (new_id : ObjectId) (w : world) :
  memes (snd (add_comment id comment new_id w)) = memes w.
Proof.
  destruct w as [[d |] ops]; unfold add_comment; run_handler; [| reflexivity].
  destruct (ObjectId_parse id) as [o |]; simpl; [| reflexivity].
  destruct (List.find (matches (by_id o)) (coll d "meme")) as [doc |]; simpl; [| reflexivity].
  destruct (size doc =? 0)%nat; simpl; [reflexivity |].
  rewrite storable_comment. simpl.
  destruct (existsb (has_id new_id) (coll d "comment")); simpl; [reflexivity |].
  unfold memes. simpl. apply coll_insert_ne. discriminate.
Qed.

Lemma create_meme_step (url_ok : string -> bool) (body : MemePayload) (meme : Meme)
    (new_id : ObjectId) (w : world) :
  Meme_validate url_ok body = inr meme ->
  memes_step url_ok (memes w) (memes (snd (create_meme meme new_id w))).
Proof.
  intros Hvalid.
  destruct w as [[d |] ops]; unfold create_meme; run_handler; [| apply step_same].
  destruct (storable (Meme_dump meme)); simpl; [| apply step_same].
  destruct (existsb (has_id new_id) (coll d "meme")); simpl; [apply step_same |].
  unfold memes. simpl. rewrite coll_insert_eq.
  apply (step_insert url_ok _ body meme new_id Hvalid).
Qed.

Lemma vote_meme_step (url_ok : string -> bool) (id : string) (body : VoteBody) (w : world) :
  memes_step url_ok (memes w) (memes (snd (vote_meme id body w))).
Proof.
  destruct w as [[d |] ops]; [| apply step_same].
  destruct (String.eqb (direction body) "up" || String.eqb (direction body) "down") eqn:Hdir.
  - destruct (ObjectId_parse id) as [o |] eqn:Hparse.
    + assert (Hd : direction body = "up" \/ direction body = "down").
      { apply orb_true_iff in Hdir as [H | H]; apply String.eqb_eq in H; auto. }
      rewrite (vote_meme_run d ops id o body Hd Hparse).
      destruct (update_first (by_id o) (vote_update (direction body)) (coll d "meme"))
        as [| c' |] eqn:Hupd; simpl; try apply step_same.
      unfold memes. simpl. rewrite coll_insert_eq.
      apply (step_vote url_ok _ c' o (direction body) Hd Hupd).
    + unfold vote_meme. run_handler. rewrite Hdir, Hparse. simpl. apply step_same.
  - unfold vote_meme. run_handler. rewrite Hdir. simpl. apply step_same.
Qed.

Lemma serve_memes_step (url_ok : string -> bool) (r : request) (w : world) :
  memes_step url_ok (memes w) (memes (snd (serve url_ok r w))).
Proof.
  destruct r as [body new_id | q tag limit | id | id body | id body new_id]; simpl.
  - destruct (Meme_validate url_ok body) as [errs | meme] eqn:Hvalid.
    + apply step_same.
    + apply (create_meme_step url_ok body meme new_id w Hvalid).
  - unfold memes. rewrite list_memes_keeps_db. apply step_same.
  - unfold memes. rewrite get_meme_keeps_db. apply step_same.
  - apply vote_meme_step.
  - destruct (Comment_validate body) as [errs | comment].
    + apply step_same.
    + rewrite add_comment_keeps_memes. apply step_same.
Qed.

Lemma serve_all_counted (url_ok : string -> bool) (rs : list request) (w : world) :
  Forall counted (memes w) -> Forall counted (memes (snd (serve_all url_ok rs w))).
Proof.
  revert w. unfold serve_all.
  induction rs as [| r rest IH]; intros w Hall; simpl; [exact Hall |].
  pose proof (memes_step_counted url_ok _ _ (serve_memes_step url_ok r w) Hall) as Hnext.
  destruct (serve url_ok r w) as [res w1]. simpl in Hnext.
  specialize (IH w1 Hnext).
  destruct (run_all (map (serve url_ok) rest) w1) as [rs' w2]. exact IH.
Qed.

(** C2, as the store has it.  Take the stored Meme that carries the
    identifier of the request, at place [i] of a collection whose
    identifiers are distinct, with counters [u] and [dn].  As long as
    [u + n] fits a stored integer, [n] votes "up" in a row all succeed and
    leave at place [i] the same Meme with [upvotes = u + n] and
    [downvotes = dn], every other place being as it was; likewise [n] votes
    "down" as long as [dn + n] fits.  No request ever lowers a counter of a
    stored Meme, and when the counters of all stored Memes are non-negative
    integers they still are after any sequence of requests. *)
Theorem vote_counters (d : Database) (ops : list db_op) (meme_id : string) (o : ObjectId)
    (i : nat) (doc : document) (u dn : Z) (n : nat) :
  ObjectId_parse meme_id = Some o ->
  ids_distinct (coll d "meme") ->
  coll d "meme" !! i = Some doc ->
  doc !! "_id" = Some (VOid o) ->
  doc !! "upvotes" = Some (VInt u) ->
  doc !! "downvotes" = Some (VInt dn) ->
  in_int64 u = true ->
  in_int64 dn = true ->
  ((u + Z.of_nat n <= int64_max)%Z ->
   exists w' d' doc',
     run_all (replicate n (vote_meme meme_id up)) (World (Some d) ops)
       = (replicate n vote_ok, w') /\
     db w' = Some d' /\
     coll d' "meme" !! i = Some doc' /\
     doc' !! "_id" = Some (VOid o) /\
     doc' !! "upvotes" = Some (VInt (u + Z.of_nat n)) /\
     doc' !! "downvotes" = Some (VInt dn) /\
     forall j, j <> i -> coll d' "meme" !! j = coll d "meme" !! j) /\
  ((dn + Z.of_nat n <= int64_max)%Z ->
   exists w' d' doc',
     run_all (replicate n (vote_meme meme_id down)) (World (Some d) ops)
       = (replicate n vote_ok, w') /\
     db w' = Some d' /\
     coll d' "meme" !! i = Some doc' /\
     doc' !! "_id" = Some (VOid o) /\
     doc' !! "downvotes" = Some (VInt (dn + Z.of_nat n)) /\
     doc' !! "upvotes" = Some (VInt u) /\
     forall j, j <> i -> coll d' "meme" !! j = coll d "meme" !! j) /\
  (forall url_ok r w, grows (memes w) (memes (snd (serve url_ok r w)))) /\
  (forall url_ok rs w,
     Forall counted (memes w) -> Forall counted (memes (snd (serve_all url_ok rs w)))).
Proof.
  intros Hparse Hdistinct Hi Hid Hup Hdn Hu64 Hdn64.
  apply in_int64_bounds in Hu64. apply in_int64_bounds in Hdn64.
  destruct (distinct_id_split _ i doc o Hdistinct Hi Hid) as (Hsplit & Hlen & Hpre & Hdoc).
  remember (take i (coll d "meme")) as pre eqn:Epre.
  remember (drop (S i) (coll d "meme")) as post eqn:Epost.
  clear Epre Epost.
  split; [| split; [| split]].
  - intros Hfit.
    destruct (votes_at meme_id o up "upvotes" pre post n
                (or_introl eq_refl) eq_refl Hparse Hpre
                d ops doc u Hsplit Hdoc Hup)
      as (w' & d' & doc' & Hrun & Hdb & Hcoll & _ & Hcount & Hrest); [lia | exact Hfit |].
    exists w', d', doc'. split; [exact Hrun |]. split; [exact Hdb |].
    rewrite Hcoll. split; [apply list_lookup_middle; symmetry; exact Hlen |].
    split; [rewrite (Hrest "_id") by discriminate; exact Hid |].
    split; [exact Hcount |].
    split; [rewrite (Hrest "downvotes") by discriminate; exact Hdn |].
    intros j Hj. rewrite Hsplit.
    apply lookup_middle_other. rewrite Hlen. exact Hj.
  - intros Hfit.
    destruct (votes_at meme_id o down "downvotes" pre post n
                (or_intror eq_refl) eq_refl Hparse Hpre
                d ops doc dn Hsplit Hdoc Hdn)
      as (w' & d' & doc' & Hrun & Hdb & Hcoll & _ & Hcount & Hrest); [lia | exact Hfit |].
    exists w', d', doc'. split; [exact Hrun |]. split; [exact Hdb |].
    rewrite Hcoll. split; [apply list_lookup_middle; symmetry; exact Hlen |].
    split; [rewrite (Hrest "_id") by discriminate; exact Hid |].
    split; [exact Hcount |].
    split; [rewrite (Hrest "upvotes") by discriminate; exact Hup |].
    intros j Hj. rewrite Hsplit.
    apply lookup_middle_other. rewrite Hlen. exact Hj.
  - intros url_ok r w. apply (memes_step_grows url_ok), serve_memes_step.
  - apply serve_all_counted.
Qed.

Lemma sample_ids_distinct : ids_distinct (coll sample_db "meme").
Proof.
  split.
  - intros [| i] x Hx; [| discriminate Hx].
    injection Hx as <-. exists sample_oid. reflexivity.
  - intros [| i] [| j] x y Hx Hy _; try discriminate; reflexivity.
Qed.

Lemma vote_counters_witness :
  exists w' d' doc',
    run_all (replicate 3 (vote_meme sample_id up)) sample_world = (replicate 3 vote_ok, w') /\
    db w' = Some d' /\ coll d' "meme" !! 0%nat = Some doc' /\
    doc' !! "_id" = Some (VOid sample_oid) /\
    doc' !! "upvotes" = Some (VInt 3) /\ doc' !! "downvotes" = Some (VInt 0) /\
    forall j, j <> 0%nat -> coll d' "meme" !! j = coll sample_db "meme" !! j.
Proof.
  destruct (vote_counters sample_db [] sample_id sample_oid 0 sample_doc 0 0 3
              eq_refl sample_ids_distinct eq_refl eq_refl eq_refl eq_refl eq_refl eq_refl)
    as (Hup & _).
  apply Hup. unfold int64_max. lia.
Defined.

(** C2 fails as stated: a stored Meme whose [upvotes] is the largest integer
    the store can hold cannot be voted up; the vote ends in the store's
    write error and the Meme is left as it was. *)
Lemma vote_at_largest_count_fails :
  coll maxed_db "meme" !! 0%nat = Some maxed_doc /\
  maxed_doc !! "_id" = Some (VOid sample_oid) /\
  maxed_doc !! "upvotes" = Some (VInt int64_max) /\
  storable maxed_doc = true /\
  vote_meme sample_id up (World (Some maxed_db) [])
    = (Raise (OperationFailure "write error"),
       World (Some maxed_db) [OpUpdateOne "meme"]).
Proof. repeat split. Qed.

(** ** Listing: patterns without operators are substring searches *)




(** ** Listing: what the filter selects *)


Lemma list_memes_run (d : Database) (ops : list db_op) (q tag : option string) (limit : Z) :
  filter_ok (filter_dict q tag) = true ->
  list_memes q tag limit (World (Some d) ops)
    = (Return (json_list (take (Z.to_nat limit)
                            (List.filter (matches (filter_dict q tag)) (coll d "meme")))),
       World (Some d) (ops ++ [OpFind "meme"])).
Proof.
  intros Hok. unfold list_memes. run_handler. rewrite Hok. reflexivity.
Qed.










(** * Further properties of the handlers *)

(** ** [to_json], continued *)

Lemma to_json_unchanged (doc : document) :
  (forall o, doc !! "_id" <> Some (VOid o)) -> to_json doc = doc.
Proof.
  intros Hno. unfold to_json.
  destruct (negb (truthy_doc (Some doc))); [reflexivity |].
  destruct (doc !! "_id") as [[] |] eqn:Hid; try reflexivity.
  exfalso. apply (Hno o). reflexivity.
Qed.

Lemma to_json_no_oid_left (doc : document) (o : ObjectId) :
  to_json doc !! "_id" <> Some (VOid o).
Proof.
  unfold to_json.
  destruct (negb (truthy_doc (Some doc))) eqn:Hempty.
  - apply negb_true_iff in Hempty. intros Hid.
    rewrite (truthy_doc_lookup doc "_id" _ Hid) in Hempty. discriminate.
  - destruct (doc !! "_id") as [[] |] eqn:Hid; try (rewrite Hid; discriminate).
    rewrite lookup_insert_ne by discriminate. rewrite lookup_delete_eq. discriminate.
Qed.

(** X1: converting twice is converting once. *)
Theorem to_json_idempotent (doc : document) : to_json (to_json doc) = to_json doc.
Proof. apply to_json_unchanged. intros o. apply to_json_no_oid_left. Qed.

(** X2: [to_json] returns a document as it is exactly when its [_id] is not
    an identifier object: a document without [_id], the empty document and
    one whose [_id] is, say, a string keep all their fields, [_id]
    included. *)
Theorem to_json_identity_iff (doc : document) :
  to_json doc = doc <-> forall o, doc !! "_id" <> Some (VOid o).
Proof.
  split; [| apply to_json_unchanged].
  intros Hsame o Hid. apply (to_json_no_oid_left doc o). rewrite Hsame. exact Hid.
Qed.

Lemma to_json_identity_iff_witness : to_json string_id_doc = string_id_doc.
Proof.
  apply (to_json_identity_iff string_id_doc). intros o Hid. discriminate Hid.
Defined.

(** ** The guards of the handlers *)

(** X3: with no database configured, retrieval, voting and commenting all
    answer status 500 "Database not configured" whatever their arguments
    (a vote with a bad direction included), and send nothing to the store. *)
Theorem unset_database_guard (ops : list db_op) (id : string) (body : VoteBody)
    (comment : Comment) (new_id : ObjectId) :
  let unconfigured := (Raise (HTTPException 500 (Text "Database not configured")),
                       World None ops) in
  get_meme id (World None ops) = unconfigured /\
  vote_meme id body (World None ops) = unconfigured /\
  add_comment id comment new_id (World None ops) = unconfigured.
Proof. repeat split. Qed.

(** X4: on a configured database, a vote with a valid direction and a
    comment creation whose path id is not a well-formed identifier both end
    in the parser's [InvalidId], uncaught; the store is neither read nor
    written. *)
Theorem malformed_id_escapes (d : Database) (ops : list db_op) (id : string)
    (body : VoteBody) (comment : Comment) (new_id : ObjectId) :
  ObjectId_parse id = None ->
  direction body = "up" \/ direction body = "down" ->
  vote_meme id body (World (Some d) ops) = (Raise (InvalidId id), World (Some d) ops) /\
  add_comment id comment new_id (World (Some d) ops)
    = (Raise (InvalidId id), World (Some d) ops).
Proof.
  intros Hparse Hdir. split.
  - unfold vote_meme. run_handler.
    destruct Hdir as [-> | ->]; simpl; rewrite Hparse; reflexivity.
  - unfold add_comment. run_handler. rewrite Hparse. reflexivity.
Qed.

Lemma malformed_id_escapes_witness :
  vote_meme "xyz" up sample_world = (Raise (InvalidId "xyz"), sample_world) /\
  add_comment "xyz" sample_comment_body [7%N] sample_world
    = (Raise (InvalidId "xyz"), sample_world).
Proof.
  apply (malformed_id_escapes sample_db [] "xyz" up sample_comment_body [7%N]);
    [reflexivity | left; reflexivity].
Defined.

(** ** Retrieval, continued *)

(** X5: whatever the state and the id, a retrieval that fails fails with
    status 500: the handler never answers 404. *)
Theorem get_meme_failures_are_500 (w : world) (id : string) (e : exn) :
  fst (get_meme id w) = Raise e -> exists dt, e = HTTPException 500 dt.
Proof.
  destruct w as [[d |] ops]; unfold get_meme; run_handler.
  - destruct (ObjectId_parse id) as [o |]; simpl.
    + destruct (List.find (matches (by_id o)) (coll d "meme")) as [doc |]; simpl.
      * destruct (size doc =? 0)%nat; simpl; intros [= <-]; eauto.
      * intros [= <-]. eauto.
    + intros [= <-]. eauto.
  - intros [= <-]. eauto.
Qed.

Lemma get_meme_failures_are_500_witness :
  exists dt, HTTPException 500 (StrOf (HTTPException 404 (Text "Meme not found")))
             = HTTPException 500 dt.
Proof.
  apply (get_meme_failures_are_500 sample_world "000000000000000000000000").
  reflexivity.
Defined.

(** X6: for a well-formed id on a configured database, retrieval answers
    with status 500 around the text of the 404 exactly when the id selects
    no stored Meme; the 404 itself never reaches the caller. *)
Theorem get_meme_wraps_404 (d : Database) (ops : list db_op) (meme_id : string) (o : ObjectId) :
  ObjectId_parse meme_id = Some o ->
  fst (get_meme meme_id (World (Some d) ops))
    = Raise (HTTPException 500 (StrOf (HTTPException 404 (Text "Meme not found"))))
  <-> lookup_meme d o = None.
Proof.
  intros Hparse. split.
  - intros Hraise. destruct (lookup_meme d o) as [doc |] eqn:Hfind; [| reflexivity].
    rewrite (get_meme_found d ops meme_id o doc Hparse Hfind) in Hraise. discriminate Hraise.
  - intros Hnone. rewrite (get_meme_absent d ops meme_id o Hparse Hnone). reflexivity.
Qed.

Lemma get_meme_wraps_404_witness :
  fst (get_meme "000000000000000000000000" sample_world)
    = Raise (HTTPException 500 (StrOf (HTTPException 404 (Text "Meme not found")))).
Proof.
  apply (get_meme_wraps_404 sample_db [] "000000000000000000000000"
           [0; 0; 0; 0; 0; 0; 0; 0; 0; 0; 0; 0]%N); reflexivity.
Defined.

(** X7: retrieval only reads.  The database after the call is the database
    before it, and the store saw nothing, one lookup in [meme], or that
    lookup followed by one query on [comment]. *)
Theorem get_meme_reads_only (w : world) (id : string) :
  db (snd (get_meme id w)) = db w /\
  exists sent, oplog (snd (get_meme id w)) = oplog w ++ sent /\
    (sent = [] \/ sent = [OpFindOne "meme"] \/ sent = [OpFindOne "meme"; OpFind "comment"]).
Proof.
  split; [apply get_meme_keeps_db |].
  destruct w as [[d |] ops]; unfold get_meme; run_handler.
  - destruct (ObjectId_parse id) as [o |]; simpl.
    + destruct (List.find (matches (by_id o)) (coll d "meme")) as [doc |]; simpl.
      * destruct (size doc =? 0)%nat; simpl.
        -- exists [OpFindOne "meme"]. auto.
        -- exists [OpFindOne "meme"; OpFind "comment"]. rewrite <- app_assoc. auto.
      * exists [OpFindOne "meme"]. auto.
    + exists []. rewrite app_nil_r. auto.
  - exists []. rewrite app_nil_r. auto.
Qed.

(** ** Voting, continued *)

(** X8: a vote rewrites one document and nothing else.  Take the stored
    Meme that carries the identifier of the request, at place [i] of a
    collection whose identifiers are distinct, with a counter that is a
    number and can still be raised.  After the vote the Meme collection is
    the same list with place [i] replaced: its counter is raised by one,
    [updated_at] is null and all its other fields are as they were; every
    other collection is untouched. *)
Theorem vote_meme_frame (d : Database) (ops : list db_op) (meme_id : string) (o : ObjectId)
    (body : VoteBody) (field : string) (i : nat) (doc : document) (m : Z) :
  direction body = "up" \/ direction body = "down" ->
  field = (if String.eqb (direction body) "up" then "upvotes" else "downvotes") ->
  ObjectId_parse meme_id = Some o ->
  ids_distinct (coll d "meme") ->
  coll d "meme" !! i = Some doc ->
  doc !! "_id" = Some (VOid o) ->
  doc !! field = Some (VInt m) ->
  in_int64 (m + 1) = true ->
  exists d',
    db (snd (vote_meme meme_id body (World (Some d) ops))) = Some d' /\
    coll d' "meme"
      = <[i := <["updated_at" := VNull]> (<[field := VInt (m + 1)]> doc)]> (coll d "meme") /\
    (forall other, other <> "meme" -> d' !! other = d !! other) /\
    (forall k, k <> field -> k <> "updated_at" ->
       (<["updated_at" := VNull]> (<[field := VInt (m + 1)]> doc)) !! k = doc !! k).
Proof.
  intros Hdir Hfield Hparse Hdistinct Hi Hid Hm Hfit.
  destruct (distinct_id_split _ i doc o Hdistinct Hi Hid) as (Hsplit & _ & Hpre & Hdoc).
  eexists.
  rewrite (vote_meme_at d ops meme_id o body field _ _ doc m
             Hdir Hfield Hparse Hsplit Hpre Hdoc Hm Hfit). simpl.
  split; [reflexivity |].
  split.
  { rewrite coll_insert_eq. symmetry.
    apply insert_take_drop, (lookup_lt_Some _ _ _ Hi). }
  split.
  - intros other Hother. apply lookup_insert_ne. congruence.
  - intros k Hk1 Hk2. rewrite !lookup_insert_ne by congruence. reflexivity.
Qed.

Lemma vote_meme_frame_witness :
  exists d',
    db (snd (vote_meme sample_id up sample_world)) = Some d' /\
    coll d' "meme"
      = <[0%nat := <["updated_at" := VNull]> (<["upvotes" := VInt (0 + 1)]> sample_doc)]>
          (coll sample_db "meme") /\
    (forall other, other <> "meme" -> d' !! other = sample_db !! other) /\
    (forall k, k <> "upvotes" -> k <> "updated_at" ->
       (<["updated_at" := VNull]> (<["upvotes" := VInt (0 + 1)]> sample_doc)) !! k
         = sample_doc !! k).
Proof.
  apply (vote_meme_frame sample_db [] sample_id sample_oid up "upvotes" 0 sample_doc 0);
    [left; reflexivity | reflexivity | reflexivity | exact sample_ids_distinct
     | reflexivity | reflexivity | reflexivity | reflexivity].
Defined.

Lemma to_json_other_fields (doc : document) (k : string) :
  k <> "id" -> k <> "_id" -> to_json doc !! k = doc !! k.
Proof.
  intros Hk1 Hk2. unfold to_json.
  destruct (negb (truthy_doc (Some doc))); [reflexivity |].
  destruct (doc !! "_id") as [[] |]; try reflexivity.
  rewrite lookup_insert_ne by congruence.
  rewrite lookup_delete_ne by congruence. reflexivity.
Qed.

Lemma voted_twice_commutes (doc : document) (u dn : Z) :
  <["updated_at" := VNull]>
    (<["downvotes" := VInt (dn + 1)]>
       (<["updated_at" := VNull]> (<["upvotes" := VInt (u + 1)]> doc)))
  = <["updated_at" := VNull]>
      (<["upvotes" := VInt (u + 1)]>
         (<["updated_at" := VNull]> (<["downvotes" := VInt (dn + 1)]> doc))).
Proof.
  apply map_eq. intros k.
  destruct (decide (k = "updated_at")) as [-> | Hk1].
  - rewrite !lookup_insert_eq. reflexivity.
  - rewrite !(lookup_insert_ne _ "updated_at") by congruence.
    destruct (decide (k = "upvotes")) as [-> | Hk2].
    + rewrite lookup_insert_ne by discriminate.
      rewrite lookup_insert_ne by discriminate.
      rewrite !lookup_insert_eq. reflexivity.
    + destruct (decide (k = "downvotes")) as [-> | Hk3].
      * rewrite lookup_insert_eq, lookup_insert_ne by discriminate.
        rewrite lookup_insert_ne by discriminate.
        rewrite lookup_insert_eq. reflexivity.
      * rewrite !lookup_insert_ne by congruence. reflexivity.
Qed.

(** X9: votes commute.  Take the stored Meme that carries the identifier
    of the request, at place [i] of a collection whose identifiers are
    distinct, with both counters numbers that can still be raised.  One
    vote up followed by one vote down leaves the same database as one vote
    down followed by one vote up; all four calls succeed, and the Meme at
    place [i] ends with both counters raised by one. *)
Theorem votes_commute (d : Database) (ops : list db_op) (meme_id : string) (o : ObjectId)
    (i : nat) (doc : document) (u dn : Z) :
  ObjectId_parse meme_id = Some o ->
  ids_distinct (coll d "meme") ->
  coll d "meme" !! i = Some doc ->
  doc !! "_id" = Some (VOid o) ->
  doc !! "upvotes" = Some (VInt u) ->
  doc !! "downvotes" = Some (VInt dn) ->
  in_int64 (u + 1) = true ->
  in_int64 (dn + 1) = true ->
  exists w' d' doc',
    run_all [vote_meme meme_id up; vote_meme meme_id down] (World (Some d) ops)
      = ([vote_ok; vote_ok], w') /\
    run_all [vote_meme meme_id down; vote_meme meme_id up] (World (Some d) ops)
      = ([vote_ok; vote_ok], w') /\
    db w' = Some d' /\
    coll d' "meme" !! i = Some doc' /\
    doc' !! "_id" = Some (VOid o) /\
    doc' !! "upvotes" = Some (VInt (u + 1)) /\
    doc' !! "downvotes" = Some (VInt (dn + 1)).
Proof.
  intros Hparse Hdistinct Hi Hid Hup Hdn Hufit Hdnfit.
  destruct (distinct_id_split _ i doc o Hdistinct Hi Hid) as (Hsplit & Hlen & Hpre & Hdoc).
  remember (take i (coll d "meme")) as pre eqn:Epre.
  remember (drop (S i) (coll d "meme")) as post eqn:Epost.
  clear Epre Epost.
  set (doc_u := <["updated_at" := VNull]> (<["upvotes" := VInt (u + 1)]> doc)).
  set (doc_d := <["updated_at" := VNull]> (<["downvotes" := VInt (dn + 1)]> doc)).
  assert (Hdoc_u : matches (by_id o) doc_u = true).
  { rewrite (matches_by_id_ext o doc doc_u); [exact Hdoc |].
    unfold doc_u. rewrite !lookup_insert_ne by discriminate. reflexivity. }
  assert (Hdoc_d : matches (by_id o) doc_d = true).
  { rewrite (matches_by_id_ext o doc doc_d); [exact Hdoc |].
    unfold doc_d. rewrite !lookup_insert_ne by discriminate. reflexivity. }
  assert (Hdn_u : doc_u !! "downvotes" = Some (VInt dn)).
  { unfold doc_u. rewrite !lookup_insert_ne by discriminate. exact Hdn. }
  assert (Hup_d : doc_d !! "upvotes" = Some (VInt u)).
  { unfold doc_d. rewrite !lookup_insert_ne by discriminate. exact Hup. }
  eexists. eexists. eexists. simpl.
  rewrite (vote_meme_at d ops meme_id o up "upvotes" pre post doc u
             (or_introl eq_refl) eq_refl Hparse Hsplit Hpre Hdoc Hup Hufit).
  rewrite (vote_meme_at _ _ meme_id o down "downvotes" pre post doc_u dn
             (or_intror eq_refl) eq_refl Hparse (coll_insert_eq _ _ _) Hpre Hdoc_u Hdn_u
             Hdnfit).
  rewrite (vote_meme_at d ops meme_id o down "downvotes" pre post doc dn
             (or_intror eq_refl) eq_refl Hparse Hsplit Hpre Hdoc Hdn Hdnfit).
  rewrite (vote_meme_at _ _ meme_id o up "upvotes" pre post doc_d u
             (or_introl eq_refl) eq_refl Hparse (coll_insert_eq _ _ _) Hpre Hdoc_d Hup_d
             Hufit).
  rewrite !insert_insert_eq.
  unfold doc_u, doc_d. rewrite (voted_twice_commutes doc u dn).
  split; [reflexivity |]. split; [reflexivity |]. simpl.
  split; [reflexivity |].
  rewrite coll_insert_eq.
  split; [apply list_lookup_middle; symmetry; exact Hlen |].
  split; [rewrite !lookup_insert_ne by discriminate; exact Hid |].
  split.
  - rewrite lookup_insert_ne by discriminate. apply lookup_insert_eq.
  - rewrite lookup_insert_ne by discriminate.
    rewrite lookup_insert_ne by discriminate.
    rewrite lookup_insert_ne by discriminate. apply lookup_insert_eq.
Qed.

Lemma votes_commute_witness :
  exists w' d' doc',
    run_all [vote_meme sample_id up; vote_meme sample_id down] sample_world
      = ([vote_ok; vote_ok], w') /\
    run_all [vote_meme sample_id down; vote_meme sample_id up] sample_world
      = ([vote_ok; vote_ok], w') /\
    db w' = Some d' /\
    coll d' "meme" !! 0%nat = Some doc' /\
    doc' !! "_id" = Some (VOid sample_oid) /\
    doc' !! "upvotes" = Some (VInt (0 + 1)) /\
    doc' !! "downvotes" = Some (VInt (0 + 1)).
Proof.
  apply (votes_commute sample_db [] sample_id sample_oid 0 sample_doc 0 0);
    [reflexivity | exact sample_ids_distinct | reflexivity | reflexivity | reflexivity
     | reflexivity | reflexivity | reflexivity].
Defined.

(** X10: a vote shows in the next retrieval.  Take the stored Meme that
    carries the identifier of the request, at place [i] of a collection
    whose identifiers are distinct, with [upvotes] at [u], a number that
    can still be raised.  After one vote up, retrieving by the same id
    answers with that Meme: its identifier under [id], [upvotes = u + 1]
    and [updated_at] null. *)
Theorem vote_then_get (d : Database) (ops : list db_op) (meme_id : string) (o : ObjectId)
    (i : nat) (doc : document) (u : Z) :
  ObjectId_parse meme_id = Some o ->
  ids_distinct (coll d "meme") ->
  coll d "meme" !! i = Some doc ->
  doc !! "_id" = Some (VOid o) ->
  doc !! "upvotes" = Some (VInt u) ->
  in_int64 (u + 1) = true ->
  exists w1 response,
    vote_meme meme_id up (World (Some d) ops) = (vote_ok, w1) /\
    fst (get_meme meme_id w1) = Return (VDoc response) /\
    response !! "id" = Some (VStr (ObjectId_str o)) /\
    response !! "upvotes" = Some (VInt (u + 1)) /\
    response !! "updated_at" = Some VNull.
Proof.
  intros Hparse Hdistinct Hi Hid Hup Hfit.
  destruct (distinct_id_split _ i doc o Hdistinct Hi Hid) as (Hsplit & _ & Hpre & Hdoc).
  remember (take i (coll d "meme")) as pre eqn:Epre.
  remember (drop (S i) (coll d "meme")) as post eqn:Epost.
  clear Epre Epost.
  pose proof (vote_meme_at d ops meme_id o up "upvotes" pre post doc u
                (or_introl eq_refl) eq_refl Hparse Hsplit Hpre Hdoc Hup Hfit) as Hvote.
  eexists. eexists. split; [exact Hvote |].
  assert (Hfind1 :
    lookup_meme (<["meme" := pre ++ <["updated_at" := VNull]>
                                      (<["upvotes" := VInt (u + 1)]> doc) :: post]> d) o
      = Some (<["updated_at" := VNull]> (<["upvotes" := VInt (u + 1)]> doc))).
  { unfold lookup_meme. rewrite coll_insert_eq.
    apply find_skip_prefix; [exact Hpre |].
    rewrite (matches_by_id_ext o doc); [exact Hdoc |].
    rewrite !lookup_insert_ne by discriminate. reflexivity. }
  rewrite (get_meme_found _ _ meme_id o _ Hparse Hfind1). simpl.
  split; [reflexivity |].
  assert (Hid' : (<["updated_at" := VNull]> (<["upvotes" := VInt (u + 1)]> doc)) !! "_id"
                 = Some (VOid o)).
  { rewrite !lookup_insert_ne by discriminate. exact Hid. }
  split; [| split].
  - rewrite lookup_insert_ne by discriminate.
    unfold to_json. rewrite (truthy_doc_lookup _ "_id" _ Hid'), Hid'. simpl.
    apply lookup_insert_eq.
  - rewrite lookup_insert_ne by discriminate.
    rewrite to_json_other_fields by discriminate.
    rewrite lookup_insert_ne by discriminate. apply lookup_insert_eq.
  - rewrite lookup_insert_ne by discriminate.
    rewrite to_json_other_fields by discriminate.
    apply lookup_insert_eq.
Qed.

Lemma vote_then_get_witness :
  exists w1 response,
    vote_meme sample_id up sample_world = (vote_ok, w1) /\
    fst (get_meme sample_id w1) = Return (VDoc response) /\
    response !! "id" = Some (VStr (ObjectId_str sample_oid)) /\
    response !! "upvotes" = Some (VInt (0 + 1)) /\
    response !! "updated_at" = Some VNull.
Proof.
  apply (vote_then_get sample_db [] sample_id sample_oid 0 sample_doc 0);
    [reflexivity | exact sample_ids_distinct | reflexivity | reflexivity | reflexivity
     | reflexivity].
Defined.

(** ** Comment creation, continued *)

Lemma stamped_refers (path_id : string) (comment : Comment) (new_id : ObjectId) :
  refers_to path_id (stamped path_id comment new_id) = true.
Proof.
  apply (refers_to_string path_id path_id); [| reflexivity].
  unfold stamped. rewrite lookup_insert_ne by discriminate. apply lookup_insert_eq.
Qed.

(** X11: a created Comment shows in the next retrieval.  After a comment
    creation that succeeded on path id [path_id], retrieving the Meme by the
    same id embeds the new Comment, under the identifier the creation
    returned and with the text that was sent. *)
Theorem add_comment_then_get (d : Database) (ops : list db_op) (path_id : string)
    (o : ObjectId) (m : document) (comment : Comment) (new_id : ObjectId) :
  ObjectId_parse path_id = Some o ->
  lookup_meme d o = Some m ->
  existsb (has_id new_id) (coll d "comment") = false ->
  exists w1 comments,
    add_comment path_id comment new_id (World (Some d) ops)
      = (Return (VDoc {["id" := VStr (ObjectId_str new_id)]}), w1) /\
    fst (get_meme path_id w1)
      = Return (VDoc (<["comments" := json_list comments]> (to_json m))) /\
    stamped path_id comment new_id ∈ comments /\
    to_json (stamped path_id comment new_id) !! "id" = Some (VStr (ObjectId_str new_id)) /\
    to_json (stamped path_id comment new_id) !! "text" = Some (VStr (text comment)).
Proof.
  intros Hparse Hfind Hfresh.
  eexists. eexists.
  split; [apply (add_comment_found d ops path_id o m comment new_id Hparse Hfind Hfresh) |].
  assert (Hfind1 : lookup_meme (<["comment" := coll d "comment"
                                    ++ [stamped path_id comment new_id]]> d) o = Some m).
  { unfold lookup_meme. rewrite coll_insert_ne by discriminate. exact Hfind. }
  rewrite (get_meme_found _ _ path_id o m Hparse Hfind1). simpl.
  split; [reflexivity |].
  split.
  - rewrite merge_sort_Permutation, coll_insert_eq.
    apply list_elem_of_In, filter_In. split; [| apply stamped_refers].
    apply in_or_app. right. left. reflexivity.
  - assert (Hid : stamped path_id comment new_id !! "_id" = Some (VOid new_id))
      by apply lookup_insert_eq.
    unfold to_json. rewrite (truthy_doc_lookup _ "_id" _ Hid), Hid. simpl.
    split; [apply lookup_insert_eq |].
    rewrite lookup_insert_ne by discriminate.
    rewrite lookup_delete_ne by discriminate.
    unfold stamped. rewrite !lookup_insert_ne by discriminate. reflexivity.
Qed.

Lemma add_comment_then_get_witness :
  exists w1 comments,
    add_comment sample_id sample_comment_body [7%N] sample_world
      = (Return (VDoc {["id" := VStr (ObjectId_str [7%N])]}), w1) /\
    fst (get_meme sample_id w1)
      = Return (VDoc (<["comments" := json_list comments]> (to_json sample_doc))) /\
    stamped sample_id sample_comment_body [7%N] ∈ comments /\
    to_json (stamped sample_id sample_comment_body [7%N]) !! "id"
      = Some (VStr (ObjectId_str [7%N])) /\
    to_json (stamped sample_id sample_comment_body [7%N]) !! "text"
      = Some (VStr (text sample_comment_body)).
Proof.
  apply (add_comment_then_get sample_db [] sample_id sample_oid sample_doc
           sample_comment_body [7%N]); reflexivity.
Defined.

(** X12: whatever its arguments, a comment creation on a configured
    database leaves every collection but [comment] as it was, and [comment]
    either as it was or longer by exactly the one stamped document, put at
    the end: no stored Meme and no earlier Comment is ever touched. *)
Theorem add_comment_frame (d : Database) (ops : list db_op) (path_id : string)
    (comment : Comment) (new_id : ObjectId) :
  exists d',
    db (snd (add_comment path_id comment new_id (World (Some d) ops))) = Some d' /\
    (forall other, other <> "comment" -> d' !! other = d !! other) /\
    (coll d' "comment" = coll d "comment" \/
     coll d' "comment" = coll d "comment" ++ [stamped path_id comment new_id]).
Proof.
  unfold add_comment. run_handler.
  destruct (ObjectId_parse path_id) as [o |]; simpl; [| exists d; auto].
  destruct (List.find (matches (by_id o)) (coll d "meme")) as [doc |]; simpl;
    [| exists d; auto].
  destruct (size doc =? 0)%nat; simpl; [exists d; auto |].
  rewrite storable_comment. simpl.
  destruct (existsb (has_id new_id) (coll d "comment")); simpl; [exists d; auto |].
  eexists. split; [reflexivity |]. split.
  - intros other Hother. apply lookup_insert_ne. congruence.
  - right. apply coll_insert_eq.
Qed.

(** ** Meme creation and listing *)

Lemma has_id_matches (o : ObjectId) (doc : document) :
  has_id o doc = true -> matches (by_id o) doc = true.
Proof.
  unfold has_id, matches, by_id. simpl.
  destruct (doc !! "_id") as [[] |]; try discriminate.
  intros Heq. apply bool_decide_eq_true_1 in Heq. subst.
  simpl. rewrite bool_decide_eq_true_2 by reflexivity. reflexivity.
Qed.

Lemma lookup_none_unused (d : Database) (o : ObjectId) :
  lookup_meme d o = None ->
  existsb (has_id o) (coll d "meme") = false /\
  Forall (fun x => matches (by_id o) x = false) (coll d "meme").
Proof.
  intros Hnone. unfold lookup_meme in Hnone.
  pose proof (find_none _ _ Hnone) as Hall.
  split.
  - destruct (existsb (has_id o) (coll d "meme")) eqn:Hex; [| reflexivity].
    apply existsb_exists in Hex as (x & Hin & Hx).
    apply has_id_matches in Hx.
    rewrite (Hall x Hin) in Hx. discriminate.
  - apply Forall_forall. intros x Hin. apply Hall, list_elem_of_In, Hin.
Qed.

Lemma to_json_new_meme (meme : Meme) (new_id : ObjectId) :
  to_json (<["_id" := VOid new_id]> (Meme_dump meme))
    = <["id" := VStr (ObjectId_str new_id)]> (Meme_dump meme).
Proof.
  assert (Hid : (<["_id" := VOid new_id]> (Meme_dump meme)) !! "_id" = Some (VOid new_id))
    by apply lookup_insert_eq.
  unfold to_json. rewrite (truthy_doc_lookup _ "_id" _ Hid), Hid. simpl.
  rewrite delete_insert_eq, delete_id by reflexivity. reflexivity.
Qed.

Lemma encodable_strings (l : list string) : forallb encodable (map VStr l) = true.
Proof. induction l as [| x l IH]; simpl; [reflexivity | exact IH]. Qed.

Lemma storable_iff (doc : document) :
  storable doc = true <-> map_Forall (fun _ v => encodable v = true) doc.
Proof.
  unfold storable. simpl.
  apply (map_fold_weak_ind
           (fun r m => r = true <-> map_Forall (fun _ v => encodable v = true) m)).
  - split; [intros _; apply map_Forall_empty | reflexivity].
  - intros i x m r Hi IH.
    rewrite andb_true_iff, IH, (map_Forall_insert _ m i x Hi). reflexivity.
Qed.

Lemma storable_meme (m : Meme) :
  image_url m = None -> sources m = [] ->
  in_int64 (upvotes m) = true -> in_int64 (downvotes m) = true ->
  storable (Meme_dump m) = true.
Proof.
  destruct m as [t i [c |] [o |] [f |] s g [b |] u dn]; simpl; intros -> -> Hu Hdn;
    apply storable_iff; unfold Meme_dump; simpl;
    repeat (apply map_Forall_insert_2; [first [reflexivity | assumption | apply encodable_strings] |]);
    apply map_Forall_empty.
Qed.

(** X13: a created Meme without URLs can be read back.  For a validated
    Meme with no [image_url], no [sources] and counters of at most eight
    bytes, when the generated identifier is twelve bytes that select no
    stored Meme, creation answers with its printed form, and retrieving by
    that string answers with exactly the fields of the Meme, the string
    under [id], and the list of comments. *)
Theorem create_meme_then_get (d : Database) (ops : list db_op) (meme : Meme)
    (new_id : ObjectId) :
  image_url meme = None -> sources meme = [] ->
  in_int64 (upvotes meme) = true -> in_int64 (downvotes meme) = true ->
  List.length new_id = 12%nat ->
  Forall (fun b => (b < 256)%N) new_id ->
  lookup_meme d new_id = None ->
  exists w1 comments,
    create_meme meme new_id (World (Some d) ops)
      = (Return (VDoc {["id" := VStr (ObjectId_str new_id)]}), w1) /\
    fst (get_meme (ObjectId_str new_id) w1)
      = Return (VDoc (<["comments" := json_list comments]>
                        (<["id" := VStr (ObjectId_str new_id)]> (Meme_dump meme)))).
Proof.
  intros Himg Hsrc Hup Hdn Hlen Hbytes Hnone.
  destruct (lookup_none_unused d new_id Hnone) as [Hfresh Hpre].
  eexists. eexists. split.
  - unfold create_meme. run_handler.
    rewrite (storable_meme meme Himg Hsrc Hup Hdn). simpl.
    rewrite Hfresh. reflexivity.
  - assert (Hfind1 :
      lookup_meme (<["meme" := coll d "meme" ++ [<["_id" := VOid new_id]> (Meme_dump meme)]]> d)
                  new_id = Some (<["_id" := VOid new_id]> (Meme_dump meme))).
    { unfold lookup_meme. rewrite coll_insert_eq.
      apply find_skip_prefix; [exact Hpre |].
      apply has_id_matches. unfold has_id. rewrite lookup_insert_eq.
      apply bool_decide_eq_true_2. reflexivity. }
    rewrite (get_meme_found _ _ _ new_id _ (ObjectId_parse_str new_id Hlen Hbytes) Hfind1).
    simpl. rewrite to_json_new_meme. reflexivity.
Qed.

Lemma create_meme_then_get_witness :
  exists w1 comments,
    create_meme sample_meme unused_oid sample_world
      = (Return (VDoc {["id" := VStr (ObjectId_str unused_oid)]}), w1) /\
    fst (get_meme (ObjectId_str unused_oid) w1)
      = Return (VDoc (<["comments" := json_list comments]>
                        (<["id" := VStr (ObjectId_str unused_oid)]> (Meme_dump sample_meme)))).
Proof.
  apply (create_meme_then_get sample_db [] sample_meme unused_oid);
    [reflexivity | reflexivity | reflexivity | reflexivity
     | reflexivity | repeat constructor | reflexivity].
Defined.

Lemma try_500 {A} (body : Handler A) (w : world) (e : exn) :
  fst (try_except body (fun e => raise (HTTPException 500 (StrOf e))) w) = Raise e ->
  exists dt, e = HTTPException 500 dt.
Proof.
  unfold try_except, raise. destruct (body w) as [[a | e0] w']; simpl.
  - discriminate.
  - intros [= <-]. eauto.
Qed.

(** X14: creation and listing run wholly inside a [try] whose handler
    re-raises as status 500: whatever happens underneath, a failure of
    either reaches the caller as an [HTTPException] with status 500. *)
Theorem create_and_list_failures_are_500 (w : world) (meme : Meme) (new_id : ObjectId)
    (q tag : option string) (limit : Z) (e : exn) :
  (fst (create_meme meme new_id w) = Raise e -> exists dt, e = HTTPException 500 dt) /\
  (fst (list_memes q tag limit w) = Raise e -> exists dt, e = HTTPException 500 dt).
Proof. split; apply try_500. Qed.

Lemma create_and_list_failures_are_500_witness :
  exists dt, HTTPException 500 (StrOf DatabaseUnavailable) = HTTPException 500 dt.
Proof.
  destruct (create_and_list_failures_are_500 (World None []) sample_meme unused_oid
              None None 50 (HTTPException 500 (StrOf DatabaseUnavailable))) as [Hcreate _].
  apply Hcreate. reflexivity.
Defined.

Lemma matches_nil (doc : document) : matches [] doc = true.
Proof. reflexivity. Qed.

Lemma filter_all {A} (p : A -> bool) (l : list A) :
  (forall x, p x = true) -> List.filter p l = l.
Proof.
  intros Hp. induction l as [| x l IH]; simpl; [reflexivity |].
  rewrite Hp, IH. reflexivity.
Qed.

(** X15: a [q] or [tag] that is absent or the empty string filters nothing:
    with neither given, listing answers with the first [limit] stored Memes
    in stored order, each through [to_json], and does not change the
    database. *)
Theorem list_memes_unfiltered (d : Database) (ops : list db_op) (q tag : option string)
    (limit : Z) :
  q = None \/ q = Some "" ->
  tag = None \/ tag = Some "" ->
  list_memes q tag limit (World (Some d) ops)
    = (Return (json_list (take (Z.to_nat limit) (coll d "meme"))),
       World (Some d) (ops ++ [OpFind "meme"])).
Proof.
  intros Hq Htag.
  assert (Hdict : filter_dict q tag = []).
  { destruct Hq as [-> | ->]; destruct Htag as [-> | ->]; reflexivity. }
  rewrite (list_memes_run d ops q tag limit) by (rewrite Hdict; reflexivity).
  rewrite Hdict, (filter_all _ _ matches_nil). reflexivity.
Qed.

Lemma list_memes_unfiltered_witness :
  list_memes (Some "") None 50 sample_world
    = (Return (json_list (take 50 [sample_doc])), World (Some sample_db) [OpFind "meme"]).
Proof.
  apply (list_memes_unfiltered sample_db [] (Some "") None 50);
    [right; reflexivity | left; reflexivity].
Defined.

(** ** Validation, continued *)

(** X17: a Meme payload with a title, no [image_url], no or empty [sources]
    and counters that are not negative is accepted, and the validated Meme
    carries the title, the texts, the tags and the counters exactly as they
    were sent, with the defaults where nothing was sent. *)
Theorem Meme_validate_accepts (url_ok : string -> bool) (p : MemePayload) (t : string) :
  p_title p = Some t ->
  p_image_url p = None ->
  p_sources p = None \/ p_sources p = Some [] ->
  (forall n, p_upvotes p = Some n -> (0 <= n)%Z) ->
  (forall n, p_downvotes p = Some n -> (0 <= n)%Z) ->
  Meme_validate url_ok p
    = inr {| title := t;
             image_url := None;
             caption := p_caption p;
             origin_summary := p_origin_summary p;
             first_seen_at := p_first_seen_at p;
             sources := [];
             tags := default [] (p_tags p);
             submitter := p_submitter p;
             upvotes := default 0%Z (p_upvotes p);
             downvotes := default 0%Z (p_downvotes p) |}.
Proof.
  intros Ht Himg Hsrc Hup Hdn.
  assert (Herrs : Meme_errors url_ok p = []).
  { unfold Meme_errors, required, url_field, url_list_field, ge0_field. rewrite Ht, Himg.
    destruct Hsrc as [-> | ->];
      (destruct (p_upvotes p) as [n |];
       [specialize (Hup n eq_refl); destruct (Z.leb_spec 0 n); [| lia] |]);
      (destruct (p_downvotes p) as [k |];
       [specialize (Hdn k eq_refl); destruct (Z.leb_spec 0 k); [| lia] |]);
      reflexivity. }
  unfold Meme_validate. rewrite Herrs, Ht, Himg.
  destruct Hsrc as [-> | ->]; reflexivity.
Qed.

Lemma Meme_validate_accepts_witness :
  Meme_validate sample_url_ok full_payload
    = inr {| title := "cat"; image_url := None;
             caption := Some "a cat"; origin_summary := None; first_seen_at := Some "2013";
             sources := []; tags := ["funny"; "cats"];
             submitter := Some "ann"; upvotes := 3; downvotes := 0 |}.
Proof.
  apply (Meme_validate_accepts sample_url_ok full_payload "cat").
  - reflexivity.
  - reflexivity.
  - right. reflexivity.
  - intros n [= <-]. lia.
  - intros n [= <-]. lia.
Defined.

(** ** Order of the embedded comments, continued *)

Lemma sorted_pairs {A} (R : relation A) (l : list A) :
  StronglySorted R l ->
  forall i j a b, (i < j)%nat -> l !! i = Some a -> l !! j = Some b -> R a b.
Proof.
  induction 1 as [| x l _ IH Hx]; intros i j a b Hij Ha Hb.
  - rewrite lookup_nil in Ha. discriminate.
  - destruct j as [| j]; [lia |]. simpl in Hb.
    destruct i as [| i]; simpl in Ha.
    + injection Ha as <-. rewrite Forall_forall in Hx.
      apply Hx. apply list_elem_of_lookup. exists j. exact Hb.
    + apply (IH i j a b); [lia | exact Ha | exact Hb].
Qed.

(** X18: in the list a retrieval embeds, a Comment without a date (the
    field null or missing) never comes before a dated one. *)
Theorem get_meme_undated_last (d : Database) (ops : list db_op) (meme_id : string)
    (o : ObjectId) (doc : document) :
  ObjectId_parse meme_id = Some o ->
  lookup_meme d o = Some doc ->
  exists comments : list document,
    fst (get_meme meme_id (World (Some d) ops))
      = Return (VDoc (<["comments" := json_list comments]> (to_json doc))) /\
    forall i j a b t,
      comments !! i = Some a -> comments !! j = Some b ->
      a !! "created_at" = None \/ a !! "created_at" = Some VNull ->
      b !! "created_at" = Some (VDate t) ->
      (j < i)%nat.
Proof.
  intros Hparse Hfind.
  exists (merge_sort newer_or_same (List.filter (refers_to meme_id) (coll d "comment"))).
  rewrite (get_meme_found d ops meme_id o doc Hparse Hfind). simpl.
  split; [reflexivity |].
  intros i j a b t Ha Hb Hundated Hdated.
  destruct (newer_or_same_undated b a t Hdated Hundated) as [_ Hnot].
  destruct (Nat.lt_trichotomy i j) as [Hlt | [-> | Hgt]]; [| | exact Hgt].
  - exfalso. apply Hnot.
    apply (sorted_pairs newer_or_same _
             (StronglySorted_merge_sort newer_or_same _) i j a b Hlt Ha Hb).
  - exfalso. rewrite Ha in Hb. injection Hb as ->.
    destruct Hundated as [Hu | Hu]; rewrite Hu in Hdated; discriminate.
Qed.

Lemma get_meme_undated_last_witness :
  fst (get_meme sample_id (World (Some sample_db_undated) []))
    = Return (VDoc (<["comments" := json_list [sample_comment 10; undated_comment]]>
                      (to_json sample_doc))).
Proof.
  destruct (get_meme_undated_last sample_db_undated [] sample_id sample_oid sample_doc
              eq_refl eq_refl) as (comments & Hret & _).
  reflexivity.
Defined.

(** ** The diagnostics endpoint *)




(** X19: what the diagnostics report under [database_url] and
    [database_name] depends on the two environment variables alone, set and
    non-empty or not; the handle's name and the "Configured" mark written
    earlier never reach the caller.  [backend] always reads as running. *)
Theorem test_database_env_fields (handle : option DbHandle) (url name : option string) :
  test_database handle url name !! "database_url" = Some (set_or_not url) /\
  test_database handle url name !! "database_name" = Some (set_or_not name) /\
  test_database handle url name !! "backend" = Some (VStr "✅ Running").
Proof.
  unfold test_database.
  split; [| split].
  - rewrite lookup_insert_ne by discriminate. apply lookup_insert_eq.
  - apply lookup_insert_eq.
  - rewrite !lookup_insert_ne by discriminate.
    destruct handle as [h |]; [| reflexivity].
    destruct (list_collection_names h);
      rewrite !lookup_insert_ne by discriminate; reflexivity.
Qed.

(** X20: the diagnostics list at most ten collections: the first ten names
    the store gave, none when it gave none, when listing raised or when no
    database is configured. *)
Theorem test_database_collections (handle : option DbHandle) (url name : option string) :
  exists names : list string,
    test_database handle url name !! "collections" = Some (VList (map VStr names)) /\
    (List.length names <= 10)%nat /\
    names = match handle with
            | Some h =>
                match list_collection_names h with
                | inr all => take 10 all
                | inl _ => []
                end
            | None => []
            end.
Proof.
  eexists. split; [| split; [| reflexivity]].
  - unfold test_database. rewrite !lookup_insert_ne by discriminate.
    destruct handle as [h |]; [| reflexivity].
    destruct (list_collection_names h) as [msg | all].
    + rewrite !lookup_insert_ne by discriminate. reflexivity.
    + rewrite lookup_insert_ne by discriminate. apply lookup_insert_eq.
  - destruct handle as [h |]; [| simpl; lia].
    destruct (list_collection_names h) as [msg | all]; [simpl; lia |].
    rewrite length_take. lia.
Qed.



Lemma test_database_collections_witness :
  test_database (Some busy_handle) None None !! "collections"
    = Some (VList (map VStr ["c01"; "c02"; "c03"; "c04"; "c05"; "c06"; "c07"; "c08"; "c09";
                             "c10"])).
Proof.
  destruct (test_database_collections (Some busy_handle) None None)
    as (names & Hshown & _ & ->).
  exact Hshown.
Defined.

(** ** Nothing is ever deleted *)

Lemma keeps_all_same (d : Database) (ops : list db_op) : keeps_all d (World (Some d) ops).
Proof. exists d, []. rewrite app_nil_r. auto. Qed.

Lemma keeps_all_memes (d : Database) (ops : list db_op) (l : collection) :
  (List.length (coll d "meme") <= List.length l)%nat ->
  keeps_all d (World (Some (<["meme" := l]> d)) ops).
Proof.
  intros Hlen. exists (<["meme" := l]> d), []. simpl.
  rewrite app_nil_r, coll_insert_eq, coll_insert_ne by discriminate. auto.
Qed.

Lemma create_meme_keeps_all (d : Database) (ops : list db_op) (meme : Meme) (new_id : ObjectId) :
  keeps_all d (snd (create_meme meme new_id (World (Some d) ops))).
Proof.
  unfold create_meme. run_handler.
  destruct (storable (Meme_dump meme)); simpl; [| apply keeps_all_same].
  destruct (existsb (has_id new_id) (coll d "meme")); simpl; [apply keeps_all_same |].
  apply keeps_all_memes. rewrite length_app. lia.
Qed.

Lemma vote_meme_keeps_all (d : Database) (ops : list db_op) (id : string) (body : VoteBody) :
  keeps_all d (snd (vote_meme id body (World (Some d) ops))).
Proof.
  destruct (String.eqb (direction body) "up" || String.eqb (direction body) "down") eqn:Hdir.
  - destruct (ObjectId_parse id) as [o |] eqn:Hparse.
    + assert (Hd : direction body = "up" \/ direction body = "down").
      { apply orb_true_iff in Hdir as [H | H]; apply String.eqb_eq in H; auto. }
      rewrite (vote_meme_run d ops id o body Hd Hparse).
      destruct (update_first_correct (by_id o) (vote_update (direction body)) (coll d "meme"))
        as [Hnone | pre doc doc' post Hl Hpre Hdoc Hu | pre doc post Hl Hpre Hdoc Hu];
        simpl; try apply keeps_all_same.
      apply keeps_all_memes. rewrite Hl, !length_app. simpl. lia.
    + unfold vote_meme. run_handler. rewrite Hdir, Hparse. simpl. apply keeps_all_same.
  - unfold vote_meme. run_handler. rewrite Hdir. simpl. apply keeps_all_same.
Qed.

Lemma add_comment_keeps_all (d : Database) (ops : list db_op) (id : string)
    (comment : Comment) (new_id : ObjectId) :
  keeps_all d (snd (add_comment id comment new_id (World (Some d) ops))).
Proof.
  unfold add_comment. run_handler.
  destruct (ObjectId_parse id) as [o |]; simpl; [| apply keeps_all_same].
  destruct (List.find (matches (by_id o)) (coll d "meme")) as [doc |]; simpl;
    [| apply keeps_all_same].
  destruct (size doc =? 0)%nat; simpl; [apply keeps_all_same |].
  rewrite storable_comment. simpl.
  destruct (existsb (has_id new_id) (coll d "comment")); simpl; [apply keeps_all_same |].
  eexists. eexists. simpl. split; [reflexivity |].
  rewrite coll_insert_eq, coll_insert_ne by discriminate. split; [reflexivity | lia].
Qed.

Lemma serve_keeps_all (url_ok : string -> bool) (r : request) (d : Database) (ops : list db_op) :
  keeps_all d (snd (serve url_ok r (World (Some d) ops))).
Proof.
  destruct r as [body new_id | q tag limit | id | id body | id body new_id]; simpl.
  - destruct (Meme_validate url_ok body); [apply keeps_all_same | apply create_meme_keeps_all].
  - pose proof (list_memes_keeps_db q tag (default default_limit limit) (World (Some d) ops)) as Hdb.
    destruct (list_memes q tag (default default_limit limit) (World (Some d) ops)) as [res [d1 ops1]].
    simpl in Hdb |- *. subst d1. apply keeps_all_same.
  - pose proof (get_meme_keeps_db id (World (Some d) ops)) as Hdb.
    destruct (get_meme id (World (Some d) ops)) as [res [d1 ops1]].
    simpl in Hdb |- *. subst d1. apply keeps_all_same.
  - apply vote_meme_keeps_all.
  - destruct (Comment_validate body); [apply keeps_all_same | apply add_comment_keeps_all].
Qed.

(** X22: no request deletes or rewrites what is stored.  After any sequence
    of requests on a configured database the database is still configured,
    every Comment that was stored is stored unchanged at the same place
    (later ones follow it), and the number of stored Memes has not gone
    down. *)
Theorem nothing_is_deleted (url_ok : string -> bool) (rs : list request)
    (d : Database) (ops : list db_op) :
  keeps_all d (snd (serve_all url_ok rs (World (Some d) ops))).
Proof.
  unfold serve_all. revert d ops.
  induction rs as [| r rest IH]; intros d ops; simpl; [apply keeps_all_same |].
  destruct (serve_keeps_all url_ok r d ops) as (d1 & extra1 & Hdb1 & Hc1 & Hm1).
  destruct (serve url_ok r (World (Some d) ops)) as [res [db1 ops1]].
  simpl in Hdb1. subst db1.
  destruct (IH d1 ops1) as (d2 & extra2 & Hdb2 & Hc2 & Hm2).
  destruct (run_all (map (serve url_ok) rest) (World (Some d1) ops1)) as [rs' w2].
  simpl in *. exists d2, (extra1 ++ extra2).
  split; [exact Hdb2 |]. split; [| lia].
  rewrite Hc2, Hc1, app_assoc. reflexivity.
Qed.
